(** * gemini_backend: the upload-to-API request lifecycle

    A shallow embedding of the two server files of the repository,
    [src/index.js] (module [Index]) and its near-duplicate
    [src/unnamed/part_000] (module [Part000]), and the properties of their
    handlers: what is sent to the generation API, what is answered to the
    client, and what happens to the temporary file of the upload.

    The handlers are JavaScript with exceptions and side effects (the file
    system, the HTTP response, the console, the upstream call).  They are
    written here in a state-and-exception monad over an explicit [State];
    the upstream API and whatever else touches the file system while a
    handler is suspended at its [await] are a [World] the handler is run in. *)

From Stdlib.Strings Require Import String Ascii Byte.
From Stdlib Require Import NArith List Lia.
From stdpp Require Import base option strings gmap list.

Local Open Scope string_scope.
Local Open Scope N_scope.
Local Set Warnings "-register-all".

(** ** JavaScript values the handlers see *)

(** Error objects.  [SystemError] is what Node's [fs] functions throw,
    [MulterError] what multer passes to [next], [ApiError] what the
    generation client rejects with, [PlainError] a [new Error(message)]. *)
Inductive JsError : Type :=
| TypeError (msg : string)
| SystemError (code : string) (syscall : string) (path : string)
| MulterError (code : string)
| ApiError (msg : string)
| PlainError (msg : string).

Definition errno_text (code : string) : string :=
  if String.eqb code "ENOENT" then "no such file or directory"
  else if String.eqb code "EACCES" then "permission denied"
  else "unknown error".

Definition multer_text (code : string) : string :=
  if String.eqb code "LIMIT_FILE_SIZE" then "File too large"
  else if String.eqb code "LIMIT_UNEXPECTED_FILE" then "Unexpected field"
  else code.

(** [err.message] *)
Definition message (err : JsError) : string :=
  match err with
  | TypeError m => m
  | SystemError code syscall path =>
      code ++ ": " ++ errno_text code ++ ", " ++ syscall ++ " '" ++ path ++ "'"
  | MulterError code => multer_text code
  | ApiError m => m
  | PlainError m => m
  end.

(** JSON bodies: objects keep their keys in the order they were written. *)
Inductive JSON : Type :=
| JString (s : string)
| JBool (b : bool)
| JObject (fields : list (string * JSON)).

(** A truthiness test of JavaScript, on strings: only the empty string is
    falsy. *)
Definition truthy (s : string) : bool :=
  match s with
  | EmptyString => false
  | String _ _ => true
  end.

(** [v || d] where [v] is [undefined] or a string. *)
Definition or_default (v : option string) (d : string) : string :=
  match v with
  | Some s => if truthy s then s else d
  | None => d
  end.

(** ** Buffer.toString("base64") *)

Definition base64_alphabet : list ascii :=
  list_ascii_of_string
    "ABCDEFGHIJKLMNOPQRSTUVWXYZabcdefghijklmnopqrstuvwxyz0123456789+/".

Definition sextet (n : N) : ascii :=
  nth (N.to_nat (N.land n 63)) base64_alphabet "="%char.

(** The three bytes [a b c] as one 24-bit number. *)
Definition group24 (a b c : byte) : N :=
  N.lor (N.shiftl (Byte.to_N a) 16)
        (N.lor (N.shiftl (Byte.to_N b) 8) (Byte.to_N c)).

Fixpoint base64 (bytes : list byte) : string :=
  match bytes with
  | [] => ""
  | [a] =>
      let n := group24 a "000"%byte "000"%byte in
      String (sextet (N.shiftr n 18)) (String (sextet (N.shiftr n 12)) "==")
  | [a; b] =>
      let n := group24 a b "000"%byte in
      String (sextet (N.shiftr n 18)) (String (sextet (N.shiftr n 12))
        (String (sextet (N.shiftr n 6)) "="))
  | a :: b :: c :: rest =>
      let n := group24 a b c in
      String (sextet (N.shiftr n 18)) (String (sextet (N.shiftr n 12))
        (String (sextet (N.shiftr n 6)) (String (sextet n) (base64 rest))))
  end.

(** ** The generation API call *)

(** One content part: [{ text }] or [{ inlineData: { mimeType, data } }]. *)
Inductive Part : Type :=
| text_part (text : string)
| inlineData (mimeType : string) (data : string).

Record Content : Type := { role : string; parts : list Part }.

(** The argument of [client.models.generateContent]. *)
Record GenerateParams : Type := { model : string; contents : list Content }.

(** What the call resolves to; the handlers read only [result.text]. *)
Record GenerateResult : Type := { text : string }.

(** ** The observable state *)

(** A file on disk.  [readable = false] stands for whatever makes
    [readFileSync] fail on a file that exists (permissions); such a file can
    still be unlinked, which needs rights on the directory only. *)
Record File : Type := { content : list byte; readable : bool }.

Inductive ResponseBody : Type :=
| json_body (v : JSON)
| text_body (s : string)
| html_body.

Record Response : Type := { status : N; payload : ResponseBody }.

(** What goes to the console, one constructor per call site. *)
Inductive LogLine : Type :=
| log_image_received (size : N) (type : string)
| log_handler_error (err : JsError)
| log_multer_error (code : string).

Inductive Event : Type :=
| ev_console (l : LogLine)
| ev_generate (p : GenerateParams)
| ev_unlink (path : string)
| ev_send (r : Response).

(** [fs]: the files that exist, by path.  [statusCode]: the status the
    response object [res] currently holds (200 until [res.status] is
    called).  [events]: everything observable the run did, oldest first. *)
Record State : Type := {
  fs : gmap string File;
  statusCode : N;
  events : list Event
}.

Definition set_fs (m : gmap string File) (st : State) : State :=
  {| fs := m; statusCode := statusCode st; events := events st |}.
Definition set_statusCode (c : N) (st : State) : State :=
  {| fs := fs st; statusCode := c; events := events st |}.
Definition emit (e : Event) (st : State) : State :=
  {| fs := fs st; statusCode := statusCode st; events := events st ++ [e] |}.

(** The state a request starts in: the files on disk, a fresh [res]. *)
Definition fresh (m : gmap string File) : State :=
  {| fs := m; statusCode := 200; events := [] |}.

(** ** The monad of handler code *)

Inductive Outcome (A : Type) : Type :=
| Returned (a : A)
| Threw (err : JsError).
Arguments Returned {A} a.
Arguments Threw {A} err.

Definition M (A : Type) : Type := State -> Outcome A * State.

Definition ret {A} (a : A) : M A := fun st => (Returned a, st).
Definition throw {A} (err : JsError) : M A := fun st => (Threw err, st).
Definition bind {A B} (m : M A) (k : A -> M B) : M B :=
  fun st =>
    match m st with
    | (Returned a, st') => k a st'
    | (Threw err, st') => (Threw err, st')
    end.
(** [try { body } catch (err) { handler err }] *)
Definition try_catch {A} (body : M A) (handler : JsError -> M A) : M A :=
  fun st =>
    match body st with
    | (Returned a, st') => (Returned a, st')
    | (Threw err, st') => handler err st'
    end.

Declare Scope js_scope.
Delimit Scope js_scope with js.
Notation "'let!' x ':=' m 'in' k" := (bind m (fun x => k))
  (at level 10, x name, m at level 100, k at level 200) : js_scope.
Notation "m ;; k" := (bind m (fun _ => k))
  (at level 100, k at level 200, right associativity) : js_scope.
Local Open Scope js_scope.

(** *** Node's [fs] *)

Definition existsSync (path : string) : M bool :=
  fun st => (Returned (bool_decide (is_Some (fs st !! path))), st).

Definition readFileSync (path : string) : M (list byte) :=
  fun st =>
    match fs st !! path with
    | None => (Threw (SystemError "ENOENT" "open" path), st)
    | Some f =>
        if readable f then (Returned (content f), st)
        else (Threw (SystemError "EACCES" "open" path), st)
    end.

(** [unlinkSync] checks nothing itself: on a path that does not exist it
    throws ENOENT. *)
Definition unlinkSync (path : string) : M unit :=
  fun st =>
    match fs st !! path with
    | None => (Threw (SystemError "ENOENT" "unlink" path), st)
    | Some _ => (Returned tt, emit (ev_unlink path) (set_fs (delete path (fs st)) st))
    end.

(** *** console and the Express response object *)

Definition console (l : LogLine) : M unit :=
  fun st => (Returned tt, emit (ev_console l) st).

(** [res.status(code)] *)
Definition res_status (code : N) : M unit :=
  fun st => (Returned tt, set_statusCode code st).

(** [res.json(v)]: sends [v] with the status [res] holds.  (Express throws
    on a second send for the same request; here it would show as a second
    [ev_send], and no handler below sends twice.) *)
Definition res_json (v : JSON) : M unit :=
  fun st =>
    (Returned tt, emit (ev_send {| status := statusCode st; payload := json_body v |}) st).

(** [res.send(s)] *)
Definition res_send (s : string) : M unit :=
  fun st =>
    (Returned tt, emit (ev_send {| status := statusCode st; payload := text_body s |}) st).

(** *** The world around one request *)

(** [upstream]: what the generation API answers to a call, a result or the
    error the promise rejects with.  [meanwhile]: what everything else does
    to the file system while the handler is suspended at the [await]. *)
Record World : Type := {
  upstream : GenerateParams -> GenerateResult + JsError;
  meanwhile : gmap string File -> gmap string File
}.

(** [await client.models.generateContent(p)] *)
Definition generateContent (w : World) (p : GenerateParams) : M GenerateResult :=
  fun st =>
    let st' := set_fs (meanwhile w (fs st)) (emit (ev_generate p) st) in
    match upstream w p with
    | inl r => (Returned r, st')
    | inr err => (Threw err, st')
    end.

(** What a trace did, counted. *)
Definition is_send (e : Event) : bool :=
  match e with ev_send _ => true | _ => false end.
Definition is_unlink_of (path : string) (e : Event) : bool :=
  match e with ev_unlink p => String.eqb p path | _ => false end.

Definition responses (evs : list Event) : list Response :=
  omap (fun e => match e with ev_send r => Some r | _ => None end) evs.
Definition generate_calls (evs : list Event) : list GenerateParams :=
  omap (fun e => match e with ev_generate p => Some p | _ => None end) evs.
Definition unlinks_of (path : string) (evs : list Event) : nat :=
  length (List.filter (is_unlink_of path) evs).

(** ** Requests *)

Inductive Method : Type := GET | POST.

(** One file part of a multipart body, as it arrives. *)
Record FilePart : Type := {
  part_field : string;
  part_filename : string;
  part_type : string;
  part_content : list byte
}.

(** A multipart body: at most one file part, and the text field [prompt]. *)
Record Multipart : Type := {
  file_part : option FilePart;
  prompt_field : option string
}.

(** The file object multer builds and leaves in [req.file]. *)
Record UploadedFile : Type := {
  fieldname : string;
  originalname : string;
  mimetype : string;
  path : string;
  size : N
}.

(** [req.body]; the handlers read only [req.body.prompt], a string or
    [undefined].  (multer makes [req.body] an object before it sets
    [req.file], and both handlers read [req.body] only after they found
    [req.file] present.) *)
Record RequestBody : Type := { prompt : option string }.

(** The request object [req]: what arrived ([method], [url], [multipart],
    [None] when the body is not multipart) and what middleware set. *)
Record Request : Type := {
  method : Method;
  url : string;
  multipart : option Multipart;
  file : option UploadedFile;
  body : RequestBody
}.

(** How a middleware function ends: it called nothing more ([ended]: the
    handlers here end so once they have answered), it called [next()], it
    called [next(err)], or, for an [async] function, the promise it returned
    rejected.  [beyond_model] is for library middleware on inputs whose
    treatment this development does not describe. *)
Inductive Signal : Type :=
| ended
| next (req : Request)
| next_error (err : JsError)
| rejected (err : JsError)
| beyond_model.

Definition Middleware : Type := Request -> M Signal.
Definition ErrorMiddleware : Type := JsError -> Request -> M Signal.

(** An [async (req, res) => { ... }] route handler as a middleware: it never
    calls [next]; an exception that escapes its body rejects its promise. *)
Definition async_handler (h : Request -> M unit) : Middleware :=
  fun req => try_catch (h req ;; ret ended) (fun err => ret (rejected err)).

(** ** Code shared by the two files, word for word *)

(** [req.file.<prop>] where [req.file] may be [undefined]. *)
Definition req_file (req : Request) (prop : string) : M UploadedFile :=
  match file req with
  | Some f => ret f
  | None =>
      throw (TypeError ("Cannot read properties of undefined (reading '" ++ prop ++ "')"))
  end.

(** The statement of both [catch] blocks (index.js 108-110, part_000 123-125):
    [if (req.file?.path && fs.existsSync(req.file.path)) fs.unlinkSync(req.file.path);] *)
Definition unlink_if_exists (req : Request) : M unit :=
  match file req with
  | None => ret tt
  | Some f =>
      if truthy (path f) then
        let! there := existsSync (path f) in
        if there then unlinkSync (path f) else ret tt
      else ret tt
  end.

(** ** The libraries around the handlers

    multer and Express are not code of this repository.  What follows
    describes, from their documentation, the part of their behaviour the
    two files rely on; the options and the order of the layers are the
    source's. *)

(** A call of the callback [cb] of a [fileFilter]: [cb(err)] or
    [cb(null, include)]. *)
Inductive Callback : Type :=
| cb_error (err : JsError)
| cb_accept (include : bool).

(** The options object given to [multer(...)]. *)
Record MulterOptions : Type := {
  dest : string;
  limits_fileSize : N;
  fileFilter_opt : option (UploadedFile -> list Callback)
}.

(** multer's filter when the options name none. *)
Definition allowAll (_ : UploadedFile) : list Callback := [cb_accept true].

Definition set_body (b : RequestBody) (req : Request) : Request :=
  {| method := method req; url := url req; multipart := multipart req;
     file := file req; body := b |}.
Definition set_file (f : UploadedFile) (req : Request) : Request :=
  {| method := method req; url := url req; multipart := multipart req;
     file := Some f; body := body req |}.

(** Disk storage: the bytes go to [path]. *)
Definition store (path : string) (bytes : list byte) : M unit :=
  fun st =>
    (Returned tt,
     set_fs (<[path := {| content := bytes; readable := true |}]> (fs st)) st).

(** [multer(opts).single(name)].  [tmp] is the random file name multer draws.
    - a body that is not multipart is left alone;
    - the text fields become [req.body];
    - no file part: [next()] with [req.file] undefined;
    - a file part under another field name: [LIMIT_UNEXPECTED_FILE];
    - a file the filter accepts and that is larger than [limits.fileSize]:
      what was written is removed again and [next] gets a [MulterError] of
      code [LIMIT_FILE_SIZE];
    - a file the filter accepts, within the limit: stored under [dest],
      described in [req.file];
    - a filter that calls back once with an error: [next(err)]; one that
      calls back once with [false]: the file is skipped.
    What multer does when the filter calls back twice, or never, is not
    described here. *)
Definition single (opts : MulterOptions) (name tmp : string) : Middleware :=
  fun req =>
    match multipart req with
    | None => ret (next req)
    | Some mp =>
        let req1 := set_body {| prompt := prompt_field mp |} req in
        match file_part mp with
        | None => ret (next req1)
        | Some p =>
            if negb (String.eqb (part_field p) name)
            then ret (next_error (MulterError "LIMIT_UNEXPECTED_FILE"))
            else
              let info :=
                {| fieldname := part_field p; originalname := part_filename p;
                   mimetype := part_type p; path := ""; size := 0 |} in
              match default allowAll (fileFilter_opt opts) info with
              | [cb_accept true] =>
                  let n := N.of_nat (length (part_content p)) in
                  if limits_fileSize opts <? n
                  then ret (next_error (MulterError "LIMIT_FILE_SIZE"))
                  else
                    let stored :=
                      {| fieldname := part_field p; originalname := part_filename p;
                         mimetype := part_type p; path := dest opts ++ tmp;
                         size := n |} in
                    store (path stored) (part_content p) ;;
                    ret (next (set_file stored req1))
              | [cb_accept false] => ret (next req1)
              | [cb_error err] => ret (next_error err)
              | _ => ret beyond_model
              end
        end
    end.

(** [cors()] and [express.json()]: on a GET or a multipart POST they answer
    nothing and change nothing the handlers read. *)
Definition cors : Middleware := fun req => ret (next req).
Definition express_json : Middleware := fun req => ret (next req).

(** One entry of the application's stack, in registration order:
    [app.use(fn)] with a three-argument [fn], [app.use(fn)] with a
    four-argument (error-handling) [fn], [app.get]/[app.post]. *)
Inductive Layer : Type :=
| use (fn : Middleware)
| use_error (fn : ErrorMiddleware)
| route (m : Method) (path : string) (fns : list Middleware).

(** How the handling of one request ends. *)
Inductive Verdict : Type :=
| stopped
| promise_rejected (err : JsError)
| not_covered.

(** Where control is when a route's own chain is left. *)
Inductive Exit : Type :=
| exit_with (v : Verdict)
| exit_next (req : Request)
| exit_error (err : JsError).

(** The functions of one route, in order.  [next(err)] leaves the route:
    none of its remaining functions takes an error.  A synchronous throw is
    caught by Express and treated as [next(err)]. *)
Fixpoint run_route (fns : list Middleware) (req : Request) (st : State)
  : Exit * State :=
  match fns with
  | [] => (exit_next req, st)
  | fn :: rest =>
      match fn req st with
      | (Returned ended, st') => (exit_with stopped, st')
      | (Returned (next req'), st') => run_route rest req' st'
      | (Returned (next_error err), st') => (exit_error err, st')
      | (Returned (rejected err), st') => (exit_with (promise_rejected err), st')
      | (Returned beyond_model, st') => (exit_with not_covered, st')
      | (Threw err, st') => (exit_error err, st')
      end
  end.

(** Express's last resort, when the stack is exhausted: with an error
    pending, status 500 (or the 4xx/5xx status [res] already holds) and an
    HTML page; with none, 404 and an HTML page. *)
Definition finalhandler (pending : option JsError) : M unit :=
  fun st =>
    let code :=
      match pending with
      | Some _ =>
          if (400 <=? statusCode st) && (statusCode st <? 600)
          then statusCode st else 500
      | None => 404
      end in
    (Returned tt, emit (ev_send {| status := code; payload := html_body |}) st).

Definition method_eqb (a b : Method) : bool :=
  match a, b with
  | GET, GET | POST, POST => true
  | _, _ => false
  end.

(** Express walks the stack forward only.  With no error pending it skips
    error middleware and routes that do not match; with an error pending it
    skips everything but error middleware, so an error is seen only by error
    middleware registered after the layer that raised it.  A route matches
    on its method and its exact path (query strings are not modelled). *)
Fixpoint handle (stack : list Layer) (pending : option JsError)
    (req : Request) (st : State) : Verdict * State :=
  let step rest (r : Outcome Signal * State) :=
    match r with
    | (Returned ended, st') => (stopped, st')
    | (Returned (next req'), st') => handle rest None req' st'
    | (Returned (next_error err), st') => handle rest (Some err) req st'
    | (Returned (rejected err), st') => (promise_rejected err, st')
    | (Returned beyond_model, st') => (not_covered, st')
    | (Threw err, st') => handle rest (Some err) req st'
    end in
  match stack with
  | [] => (stopped, snd (finalhandler pending st))
  | use fn :: rest =>
      match pending with
      | None => step rest (fn req st)
      | Some _ => handle rest pending req st
      end
  | use_error fn :: rest =>
      match pending with
      | None => handle rest None req st
      | Some err => step rest (fn err req st)
      end
  | route m p fns :: rest =>
      match pending with
      | None =>
          if method_eqb m (method req) && String.eqb p (url req) then
            match run_route fns req st with
            | (exit_with v, st') => (v, st')
            | (exit_next req', st') => handle rest None req' st'
            | (exit_error err, st') => handle rest (Some err) req st'
            end
          else handle rest None req st
      | Some _ => handle rest pending req st
      end
  end.

(** ** src/index.js *)
Module Index.

(** Lines 18-23. *)
Definition upload : MulterOptions :=
  {| dest := "uploads/";
     limits_fileSize := 10 * 1024 * 1024;
     fileFilter_opt := None |}.

(** Lines 28-37: the error middleware. *)
Definition multer_error_handler : ErrorMiddleware :=
  fun err _ =>
    match err with
    | MulterError code =>
        console (log_multer_error code) ;;
        res_status 400 ;;
        res_json (JObject [("error", JString "Upload error");
                           ("details", JString code)]) ;;
        ret ended
    | _ => ret (next_error err)
    end.

(** Lines 56-63: GET /test-gemini, with no [try] around the call. *)
Definition test_gemini (w : World) (req : Request) : M unit :=
  let! result :=
    generateContent w
      {| model := "gemini-1.5-flash";
         contents := [ {| role := "user"; parts := [ text_part "Say hello" ] |} ] |} in
  res_json (JObject [("output", JString (text result))]).

(** Lines 72-105: the [try] block of POST /analyze-image. *)
Definition analyze_image_try (w : World) (req : Request) : M unit :=
  let! f := req_file req "size" in
  console (log_image_received (size f) (mimetype f)) ;;
  let! imageBuffer := readFileSync (path f) in
  let base64Image := base64 imageBuffer in
  let prompt := or_default (prompt (body req)) "Analyze this image" in
  let! result :=
    generateContent w
      {| model := "gemini-1.5-flash";
         contents :=
           [ {| role := "user";
                parts := [ text_part prompt;
                           inlineData (mimetype f) base64Image ] |} ] |} in
  unlinkSync (path f) ;;
  res_json (JObject [("output", JString (text result))]).

(** Lines 105-116: its [catch] block. *)
Definition analyze_image_catch (req : Request) (err : JsError) : M unit :=
  console (log_handler_error err) ;;
  unlink_if_exists req ;;
  res_status 500 ;;
  res_json (JObject [("error", JString "Gemini processing failed");
                     ("details", JString (message err))]).

(** Lines 71-117: POST /analyze-image. *)
Definition analyze_image (w : World) (req : Request) : M unit :=
  try_catch (analyze_image_try w req) (analyze_image_catch req).

(** Lines 49-51. *)
Definition health : Middleware :=
  fun _ => res_send "Gemini backend running ✅" ;; ret ended.

(** The stack, in the order the file registers it (lines 11, 28, 49, 56,
    68): the error middleware comes before every route. *)
Definition app (w : World) (tmp : string) : list Layer :=
  [ use cors;
    use_error multer_error_handler;
    route GET "/" [ health ];
    route GET "/test-gemini" [ async_handler (test_gemini w) ];
    route POST "/analyze-image"
      [ single upload "image" tmp; async_handler (analyze_image w) ] ].

End Index.

(** ** src/unnamed/part_000 *)
Module Part000.

(** Lines 26-31.  The callback calls the filter makes, in order: there is
    no [return] after the first one. *)
Definition fileFilter (file : UploadedFile) : list Callback :=
  (if negb (String.prefix "image/" (mimetype file))
   then [cb_error (PlainError "Only image files allowed")]
   else [])
  ++ [cb_accept true].

(** Lines 23-32. *)
Definition upload : MulterOptions :=
  {| dest := "uploads/";
     limits_fileSize := 5 * 1024 * 1024;
     fileFilter_opt := Some fileFilter |}.

(** Lines 51-74: GET /test-gemini. *)
Definition test_gemini (w : World) (req : Request) : M unit :=
  try_catch
    (let! result :=
       generateContent w
         {| model := "gemini-2.0-flash";
            contents :=
              [ {| role := "user";
                   parts := [ text_part "Say 'Gemini API is working' in one sentence." ] |} ] |} in
     res_json (JObject [("success", JBool true);
                        ("output", JString (text result))]))
    (fun error =>
       console (log_handler_error error) ;;
       res_status 500 ;;
       res_json (JObject [("success", JBool false);
                          ("error", JString "Gemini API test failed")])).

(** Lines 83-120: the [try] block of POST /analyze-image. *)
Definition analyze_image_try (w : World) (req : Request) : M unit :=
  match file req with
  | None =>
      res_status 400 ;;
      res_json (JObject [("error", JString "Image is required")])
  | Some f =>
      let prompt :=
        or_default (prompt (body req))
                   "Analyze this image and explain what you see" in
      let! imageBuffer := readFileSync (path f) in
      let base64Image := base64 imageBuffer in
      let! result :=
        generateContent w
          {| model := "gemini-2.0-flash";
             contents :=
               [ {| role := "user";
                    parts := [ text_part prompt;
                               inlineData (mimetype f) base64Image ] |} ] |} in
      unlinkSync (path f) ;;
      res_json (JObject [("output", JString (text result))])
  end.

(** Lines 120-130: its [catch] block. *)
Definition analyze_image_catch (req : Request) (error : JsError) : M unit :=
  console (log_handler_error error) ;;
  unlink_if_exists req ;;
  res_status 500 ;;
  res_json (JObject [("error", JString "Image analysis failed")]).

(** Lines 82-131: POST /analyze-image. *)
Definition analyze_image (w : World) (req : Request) : M unit :=
  try_catch (analyze_image_try w req) (analyze_image_catch req).

(** Lines 44-46. *)
Definition health : Middleware :=
  fun _ => res_send "✅ Gemini backend is running" ;; ret ended.

(** The stack, in the order the file registers it (lines 17, 18, 44, 51,
    79); it holds no error middleware. *)
Definition app (w : World) (tmp : string) : list Layer :=
  [ use cors;
    use express_json;
    route GET "/" [ health ];
    route GET "/test-gemini" [ async_handler (test_gemini w) ];
    route POST "/analyze-image"
      [ single upload "image" tmp; async_handler (analyze_image w) ] ].

End Part000.

(** ** What the claims expect

    The request an image handler is expected to make: one user turn of
    exactly two parts, the instruction and then the image inline. *)
Definition image_request (model prompt mimeType data : string) : GenerateParams :=
  {| model := model;
     contents :=
       [ {| role := "user";
            parts := [ text_part prompt; inlineData mimeType data ] |} ] |}.

(** The request of a text-only call: one user turn of one text part. *)
Definition text_request (model prompt : string) : GenerateParams :=
  {| model := model;
     contents := [ {| role := "user"; parts := [ text_part prompt ] |} ] |}.

(** [{ output: t }] *)
Definition output_body (t : string) : ResponseBody :=
  json_body (JObject [("output", JString t)]).

(** Nothing but the request itself removes the file at [path] while the
    handler waits for the upstream: the temporary file is private to its
    request. *)
Definition private (w : World) (path : string) : Prop :=
  forall m : gmap string File, is_Some (m !! path) -> is_Some (meanwhile w m !! path).

(** The upstream fails whatever it is asked. *)
Definition upstream_fails (w : World) : Prop :=
  forall p, exists err, upstream w p = inr err.

(** What the client is answered does not depend on what the upstream's
    error says: two worlds that differ only in the errors their upstream
    fails with get the same responses. *)
Definition hides_upstream_error (handler : World -> Request -> M unit) : Prop :=
  forall (w1 w2 : World) (req : Request) (st : State),
    upstream_fails w1 -> upstream_fails w2 ->
    (forall m, meanwhile w1 m = meanwhile w2 m) ->
    responses (events (snd (handler w1 req st)))
    = responses (events (snd (handler w2 req st))).

(** ** Sample data: one small upload, and three worlds *)

(** The first bytes of a JPEG file. *)
Definition jpeg : list byte := [xff; xd8; xff; xe0].

Definition sample_file : UploadedFile :=
  {| fieldname := "image"; originalname := "cat.jpg"; mimetype := "image/jpeg";
     path := "uploads/3f2a"; size := 4 |}.

Definition sample_disk : gmap string File :=
  {[ "uploads/3f2a" := {| content := jpeg; readable := true |} ]}.

(** [req] as the handler finds it once multer has stored [sample_file]. *)
Definition sample_request (p : option string) : Request :=
  {| method := POST; url := "/analyze-image";
     multipart :=
       Some {| file_part :=
                 Some {| part_field := "image"; part_filename := "cat.jpg";
                         part_type := "image/jpeg"; part_content := jpeg |};
               prompt_field := p |};
     file := Some sample_file;
     body := {| prompt := p |} |}.

(** A POST /analyze-image as it arrives, carrying one file in the field
    [image]: no middleware has run yet. *)
Definition upload_request (filename type : string) (bytes : list byte)
    (p : option string) : Request :=
  {| method := POST; url := "/analyze-image";
     multipart :=
       Some {| file_part :=
                 Some {| part_field := "image"; part_filename := filename;
                         part_type := type; part_content := bytes |};
               prompt_field := p |};
     file := None;
     body := {| prompt := None |} |}.

(** A POST /analyze-image as it arrives with no file part at all. *)
Definition bare_request (p : option string) : Request :=
  {| method := POST; url := "/analyze-image";
     multipart := Some {| file_part := None; prompt_field := p |};
     file := None;
     body := {| prompt := None |} |}.

(** The upstream answers [t]; nobody else touches the disk. *)
Definition answering (t : string) : World :=
  {| upstream := fun _ => inl {| text := t |}; meanwhile := fun m => m |}.

(** The upstream fails with [err]; nobody else touches the disk. *)
Definition failing (err : JsError) : World :=
  {| upstream := fun _ => inr err; meanwhile := fun m => m |}.

(** The upstream answers [t], and while the handler waits something else
    removes the file at [path]. *)
Definition sweeping (t : string) (path : string) : World :=
  {| upstream := fun _ => inl {| text := t |}; meanwhile := delete path |}.

(** ** Triples over handler code

    [triple P m Q E]: run from a state satisfying [P], [m] either returns
    [a] in a state satisfying [Q a] or throws [err] in a state satisfying
    [E err]. *)

Definition triple {A} (P : State -> Prop) (m : M A)
    (Q : A -> State -> Prop) (E : JsError -> State -> Prop) : Prop :=
  forall st, P st ->
    match m st with
    | (Returned a, st') => Q a st'
    | (Threw err, st') => E err st'
    end.

(** [m] changes nothing about [I], however it ends. *)
Definition keeps {A} (I : State -> Prop) (m : M A) : Prop :=
  triple I m (fun _ => I) (fun _ => I).

(** [m] keeps [I] and never throws. *)
Definition quietly {A} (I : State -> Prop) (m : M A) : Prop :=
  triple I m (fun _ => I) (fun _ _ => False).

(** The responses sent so far are exactly [l]. *)
Definition sent (l : list Response) (st : State) : Prop :=
  responses (events st) = l.

(** The calls made to the generation API so far are exactly [l]. *)
Definition called (l : list GenerateParams) (st : State) : Prop :=
  generate_calls (events st) = l.

(** The call index.js makes for [req] once it has read [x] as [req.file]. *)
Definition index_request (req : Request) (f : UploadedFile) (x : File) : GenerateParams :=
  image_request "gemini-1.5-flash"
    (or_default (prompt (body req)) "Analyze this image")
    (mimetype f) (base64 (content x)).

(** The call part_000 makes. *)
Definition part000_request (req : Request) (f : UploadedFile) (x : File) : GenerateParams :=
  image_request "gemini-2.0-flash"
    (or_default (prompt (body req)) "Analyze this image and explain what you see")
    (mimetype f) (base64 (content x)).

(** The state in which a handler resumes after its call [p]: the call is in
    the trace, the disk is what the rest of the world made of it. *)
Definition resumed (w : World) (p : GenerateParams) (st : State) : State :=
  set_fs (meanwhile w (fs st)) (emit (ev_generate p) st).

(** The state in which a handler that resumed in [st] returns from its
    success path: the file removed, the answer sent. *)
Definition succeeded (f : UploadedFile) (t : string) (st : State) : State :=
  emit (ev_send {| status := statusCode st; payload := output_body t |})
    (emit (ev_unlink (path f)) (set_fs (delete (path f) (fs st)) st)).

(** The body of the one 500 of index.js. *)
Definition index_failure (details : string) : Response :=
  {| status := 500;
     payload := json_body (JObject [("error", JString "Gemini processing failed");
                                    ("details", JString details)]) |}.

(** The one 500 of part_000. *)
Definition part000_failure : Response :=
  {| status := 500;
     payload := json_body (JObject [("error", JString "Image analysis failed")]) |}.

(** The 400 of part_000. *)
Definition image_required : Response :=
  {| status := 400;
     payload := json_body (JObject [("error", JString "Image is required")]) |}.

(** The paths removed from disk so far, oldest first. *)
Definition removals (evs : list Event) : list string :=
  omap (fun e => match e with ev_unlink p => Some p | _ => None end) evs.

(** ** Reading base64 back

    The source only encodes.  The decoder below is the inverse used to state
    that the encoding loses nothing. *)

Fixpoint index_of (c : ascii) (l : list ascii) : N :=
  match l with
  | [] => 0
  | d :: l' => if Ascii.eqb c d then 0 else N.succ (index_of c l')
  end.

(** The value of a base64 character. *)
Definition unsextet (c : ascii) : N := index_of c base64_alphabet.

(** Four 6-bit values as one 24-bit number. *)
Definition quad (v1 v2 v3 v4 : N) : N :=
  N.lor (N.shiftl v1 18) (N.lor (N.shiftl v2 12) (N.lor (N.shiftl v3 6) v4)).

(** The byte of [n] that starts at bit [k]. *)
Definition octet (n k : N) : byte :=
  match Byte.of_N (N.land (N.shiftr n k) 255) with
  | Some b => b
  | None => x00
  end.

Fixpoint unbase64 (s : string) : list byte :=
  match s with
  | String c1 (String c2 (String c3 (String c4 rest))) =>
      if Ascii.eqb c3 "=" then
        [octet (quad (unsextet c1) (unsextet c2) 0 0) 16]
      else if Ascii.eqb c4 "=" then
        let n := quad (unsextet c1) (unsextet c2) (unsextet c3) 0 in
        [octet n 16; octet n 8]
      else
        let n := quad (unsextet c1) (unsextet c2) (unsextet c3) (unsextet c4) in
        octet n 16 :: octet n 8 :: octet n 0 :: unbase64 rest
  | _ => []
  end.

(** * Properties *)

Local Open Scope list_scope.

(** ** base64 on the running example of RFC 4648 *)

Example base64_Man : base64 ["M"; "a"; "n"]%byte = "TWFu".
Proof. reflexivity. Qed.
Example base64_Ma : base64 ["M"; "a"]%byte = "TWE=".
Proof. reflexivity. Qed.
Example base64_M : base64 ["M"]%byte = "TQ==".
Proof. reflexivity. Qed.

Example base64_jpeg : base64 jpeg = "/9j/4A==".
Proof. reflexivity. Qed.

(** Four characters for every three bytes, the last group padded. *)
Lemma base64_length (bytes : list byte) :
  String.length (base64 bytes) = (4 * ((length bytes + 2) / 3))%nat.
Proof.
  assert (H : forall n (bs : list byte), (length bs <= n)%nat ->
            String.length (base64 bs) = (4 * ((length bs + 2) / 3))%nat).
  { induction n as [| n IH]; intros bs Hn.
    - destruct bs; [reflexivity | simpl in Hn; lia].
    - destruct bs as [| a [| b [| c rest]]]; try reflexivity.
      cbn [base64 String.length length]. rewrite IH by (simpl in Hn; lia).
      replace (S (S (S (length rest))) + 2)%nat
        with (length rest + 2 + 1 * 3)%nat by lia.
      rewrite Nat.div_add by lia. lia. }
  apply (H (length bytes)). lia.
Qed.

(** ** Reading traces *)

Lemma responses_app (l k : list Event) :
  responses (l ++ k) = responses l ++ responses k.
Proof. unfold responses. apply omap_app. Qed.

Lemma generate_calls_app (l k : list Event) :
  generate_calls (l ++ k) = generate_calls l ++ generate_calls k.
Proof. unfold generate_calls. apply omap_app. Qed.

Lemma unlinks_of_app (p : string) (l k : list Event) :
  unlinks_of p (l ++ k) = (unlinks_of p l + unlinks_of p k)%nat.
Proof. unfold unlinks_of. rewrite List.filter_app. apply length_app. Qed.

Lemma unlinks_of_self (p : string) : unlinks_of p [ev_unlink p] = 1%nat.
Proof.
  unfold unlinks_of. simpl. by rewrite String.eqb_refl.
Qed.

(** ** Rules for triples *)

Section Rules.
Context {A B : Type}.
Implicit Types (P : State -> Prop) (E : JsError -> State -> Prop).

Lemma triple_ret P E (a : A) (Q : A -> State -> Prop) :
  (forall st, P st -> Q a st) -> triple P (ret a) Q E.
Proof. intros H st HP. simpl. auto. Qed.

Lemma triple_throw P (Q : A -> State -> Prop) E err :
  (forall st, P st -> E err st) -> triple P (throw err) Q E.
Proof. intros H st HP. simpl. auto. Qed.

Lemma triple_bind P (m : M A) (k : A -> M B) Q R E :
  triple P m Q E -> (forall a, triple (Q a) (k a) R E) ->
  triple P (bind m k) R E.
Proof.
  intros Hm Hk st HP. unfold bind. specialize (Hm st HP).
  destruct (m st) as [[a | err] st']; [exact (Hk a st' Hm) | exact Hm].
Qed.

Lemma triple_try P (body : M A) (h : JsError -> M A) Q E E' :
  triple P body Q E' -> (forall err, triple (E' err) (h err) Q E) ->
  triple P (try_catch body h) Q E.
Proof.
  intros Hb Hh st HP. unfold try_catch. specialize (Hb st HP).
  destruct (body st) as [[a | err] st']; [exact Hb | exact (Hh err st' Hb)].
Qed.

Lemma triple_weaken P P' (m : M A) (Q Q' : A -> State -> Prop) E E' :
  triple P' m Q' E' ->
  (forall st, P st -> P' st) ->
  (forall a st, Q' a st -> Q a st) ->
  (forall err st, E' err st -> E err st) ->
  triple P m Q E.
Proof.
  intros Hm HP HQ HE st Hst. specialize (Hm st (HP st Hst)).
  destruct (m st) as [[a | err] st']; auto.
Qed.
End Rules.

(** A step that keeps [I], followed by a continuation that starts from [I]. *)
Lemma triple_after {A B} (I : State -> Prop) (m : M A) (k : A -> M B)
    (R : B -> State -> Prop) (E : JsError -> State -> Prop) :
  keeps I m -> (forall err st, I st -> E err st) ->
  (forall a, triple I (k a) R E) ->
  triple I (bind m k) R E.
Proof.
  intros Hm HE Hk. eapply triple_bind; [| exact Hk].
  eapply triple_weaken; [exact Hm | auto | auto | exact HE].
Qed.

(** ** What each primitive does to the responses sent *)

Section Sent.
Variable l : list Response.

Lemma sent_emit (e : Event) (st : State) :
  is_send e = false -> sent l st -> sent l (emit e st).
Proof.
  unfold sent. intros He <-. simpl. rewrite responses_app.
  destruct e; try discriminate; simpl; apply app_nil_r.
Qed.

Lemma quietly_sent_console line : quietly (sent l) (console line).
Proof. intros st H. simpl. by apply sent_emit. Qed.

Lemma quietly_sent_res_status code : quietly (sent l) (res_status code).
Proof. intros st H. exact H. Qed.

Lemma quietly_sent_existsSync p : quietly (sent l) (existsSync p).
Proof. intros st H. exact H. Qed.

Lemma keeps_sent_readFileSync p : keeps (sent l) (readFileSync p).
Proof.
  intros st H. unfold readFileSync.
  destruct (fs st !! p) as [f |]; [destruct (readable f) |]; exact H.
Qed.

Lemma keeps_sent_unlinkSync p : keeps (sent l) (unlinkSync p).
Proof.
  intros st H. unfold unlinkSync.
  destruct (fs st !! p); [| exact H]. by apply sent_emit.
Qed.

Lemma keeps_sent_generateContent w p : keeps (sent l) (generateContent w p).
Proof.
  intros st H. unfold generateContent.
  assert (sent l (set_fs (meanwhile w (fs st)) (emit (ev_generate p) st)))
    by (by apply (sent_emit (ev_generate p))).
  by destruct (upstream w p).
Qed.

Lemma keeps_sent_req_file req prop : keeps (sent l) (req_file req prop).
Proof. intros st H. unfold req_file. by destruct (file req). Qed.

(** The guarded delete never throws: [unlinkSync] runs only on a path
    [existsSync] has just found. *)
Lemma quietly_sent_unlink_if_exists req : quietly (sent l) (unlink_if_exists req).
Proof.
  intros st H. unfold unlink_if_exists, bind, existsSync, unlinkSync, ret.
  destruct (file req) as [f |]; [| exact H].
  destruct (truthy (path f)); [| exact H].
  destruct (fs st !! path f) as [x |] eqn:Hx.
  - rewrite bool_decide_eq_true_2 by eauto. rewrite Hx. by apply sent_emit.
  - rewrite bool_decide_eq_false_2 by (intros [? ?]; discriminate). exact H.
Qed.

(** [res.json] never throws and sends exactly one response, with the
    status [res] holds. *)
Lemma res_json_sends v (E : JsError -> State -> Prop) :
  triple (sent l) (res_json v)
    (fun _ st => sent (l ++ [{| status := statusCode st; payload := json_body v |}]) st) E.
Proof.
  intros st H. unfold sent in *. simpl. rewrite responses_app, H. reflexivity.
Qed.
End Sent.

Lemma quietly_keeps {A} (I : State -> Prop) (m : M A) : quietly I m -> keeps I m.
Proof. intros H. eapply triple_weaken; [exact H | auto | auto | intros ? ? []]. Qed.

(** A step that keeps [I] and never throws, followed by a continuation. *)
Lemma triple_then {A B} (I : State -> Prop) (m : M A) (k : A -> M B)
    (R : B -> State -> Prop) (E : JsError -> State -> Prop) :
  quietly I m -> (forall a, triple I (k a) R E) -> triple I (bind m k) R E.
Proof.
  intros Hm Hk. eapply triple_bind; [| exact Hk].
  eapply triple_weaken; [exact Hm | auto | auto | intros ? ? []].
Qed.

Create HintDb sent discriminated.
#[local] Hint Resolve quietly_sent_console quietly_sent_res_status
  quietly_sent_existsSync quietly_sent_unlink_if_exists
  keeps_sent_readFileSync keeps_sent_unlinkSync
  keeps_sent_generateContent keeps_sent_req_file : sent.

(** One step that may throw, in a block whose exceptions leave [sent l]. *)
Ltac silent_step :=
  apply triple_after; [ solve [ auto with sent ] | solve [ auto ] | intros ].

(** One step that cannot throw. *)
Ltac quiet_step :=
  apply triple_then; [ solve [ auto with sent ] | intros ].

Ltac last_send :=
  eapply triple_weaken;
  [ eapply res_json_sends
  | intros ? H; exact H
  | intros ? ? H; eexists; exact H
  | intros ? ? H; exact H ].

(** ** The image handlers answer exactly once *)

(** The [try] block of index.js: it returns after one response, or throws
    before any. *)
Lemma index_try_sent (w : World) (req : Request) (l : list Response) :
  triple (sent l) (Index.analyze_image_try w req)
    (fun _ st => exists r, sent (l ++ [r]) st) (fun _ => sent l).
Proof.
  unfold Index.analyze_image_try.
  silent_step. quiet_step. do 3 silent_step. last_send.
Qed.

(** Its [catch] block: one response, and nothing escapes it. *)
Lemma index_catch_sent (req : Request) (err : JsError) (l : list Response) :
  triple (sent l) (Index.analyze_image_catch req err)
    (fun _ st => exists r, sent (l ++ [r]) st) (fun _ _ => False).
Proof.
  unfold Index.analyze_image_catch. do 3 quiet_step. last_send.
Qed.

Lemma part000_try_sent (w : World) (req : Request) (l : list Response) :
  triple (sent l) (Part000.analyze_image_try w req)
    (fun _ st => exists r, sent (l ++ [r]) st) (fun _ => sent l).
Proof.
  unfold Part000.analyze_image_try. destruct (file req) as [f |].
  - do 3 silent_step. last_send.
  - quiet_step. last_send.
Qed.

Lemma part000_catch_sent (req : Request) (err : JsError) (l : list Response) :
  triple (sent l) (Part000.analyze_image_catch req err)
    (fun _ st => exists r, sent (l ++ [r]) st) (fun _ _ => False).
Proof.
  unfold Part000.analyze_image_catch. do 3 quiet_step. last_send.
Qed.

Lemma index_analyze_image_sent (w : World) (req : Request) (l : list Response) :
  triple (sent l) (Index.analyze_image w req)
    (fun _ st => exists r, sent (l ++ [r]) st) (fun _ _ => False).
Proof.
  eapply triple_try; [apply index_try_sent | intros; apply index_catch_sent].
Qed.

Lemma part000_analyze_image_sent (w : World) (req : Request) (l : list Response) :
  triple (sent l) (Part000.analyze_image w req)
    (fun _ st => exists r, sent (l ++ [r]) st) (fun _ _ => False).
Proof.
  eapply triple_try; [apply part000_try_sent | intros; apply part000_catch_sent].
Qed.

(** A handler whose triple ends in [False] on exceptions returns. *)
Lemma triple_returns {A} (P : State -> Prop) (m : M A) (Q : A -> State -> Prop) st :
  triple P m Q (fun _ _ => False) -> P st ->
  exists a st', m st = (Returned a, st') /\ Q a st'.
Proof.
  intros H HP. specialize (H st HP).
  destruct (m st) as [[a | err] st']; [eauto | contradiction].
Qed.

(** C10.  On every path of the POST /analyze-image handler of either file
    (the early return on a missing file, the success path, the [catch]
    block), and whatever the request, the disk and the upstream do, the
    handler returns without an exception and has sent exactly one response:
    the responses after the run are those before it plus one. *)
Theorem analyze_image_sends_exactly_one (w : World) (req : Request) (st : State) :
  (exists r st',
      Index.analyze_image w req st = (Returned tt, st') /\
      responses (events st') = responses (events st) ++ [r]) /\
  (exists r st',
      Part000.analyze_image w req st = (Returned tt, st') /\
      responses (events st') = responses (events st) ++ [r]).
Proof.
  split.
  - destruct (triple_returns _ _ _ st (index_analyze_image_sent w req _) eq_refl)
      as ([] & st' & Hrun & r & Hr).
    by exists r, st'.
  - destruct (triple_returns _ _ _ st (part000_analyze_image_sent w req _) eq_refl)
      as ([] & st' & Hrun & r & Hr).
    by exists r, st'.
Qed.

(** ** The two blocks of the image handlers, as equations *)

(** The guarded delete returns, whatever the state. *)
Lemma unlink_if_exists_returns (req : Request) (st : State) :
  unlink_if_exists req st = (Returned tt, snd (unlink_if_exists req st)).
Proof.
  unfold unlink_if_exists, bind, existsSync, unlinkSync, ret.
  destruct (file req) as [f |]; [| reflexivity].
  destruct (truthy (path f)); [| reflexivity].
  destruct (fs st !! path f) as [x |] eqn:Hx.
  - rewrite bool_decide_eq_true_2 by eauto. by rewrite Hx.
  - by rewrite bool_decide_eq_false_2 by (intros [? ?]; discriminate).
Qed.

Lemma unlink_if_exists_present (req : Request) (f : UploadedFile) (st : State) :
  file req = Some f -> truthy (path f) = true -> is_Some (fs st !! path f) ->
  unlink_if_exists req st
  = (Returned tt, emit (ev_unlink (path f)) (set_fs (delete (path f) (fs st)) st)).
Proof.
  intros Hf Ht [x Hx]. unfold unlink_if_exists, bind, existsSync, unlinkSync.
  rewrite Hf, Ht. rewrite bool_decide_eq_true_2 by eauto.
  rewrite Hx. reflexivity.
Qed.

Lemma unlink_if_exists_absent (req : Request) (st : State) :
  (forall f, file req = Some f -> fs st !! path f = None) ->
  unlink_if_exists req st = (Returned tt, st).
Proof.
  intros H. unfold unlink_if_exists, bind, existsSync, unlinkSync, ret.
  destruct (file req) as [f |]; [| reflexivity].
  destruct (truthy (path f)); [| reflexivity].
  rewrite (H f eq_refl). rewrite bool_decide_eq_false_2; [reflexivity |].
  intros [x Hx]. discriminate.
Qed.

(** All the guarded delete can add to the trace is one removal. *)
Lemma unlink_if_exists_events (req : Request) (st : State) :
  events (snd (unlink_if_exists req st)) = events st \/
  exists p, events (snd (unlink_if_exists req st)) = events st ++ [ev_unlink p].
Proof.
  unfold unlink_if_exists, bind, existsSync, unlinkSync, ret.
  destruct (file req) as [f |]; [| by left].
  destruct (truthy (path f)); [| by left].
  destruct (fs st !! path f) as [x |] eqn:Hx.
  - rewrite bool_decide_eq_true_2 by eauto. rewrite Hx. right. by exists (path f).
  - rewrite bool_decide_eq_false_2 by (intros [? ?]; discriminate). by left.
Qed.

Lemma unlink_if_exists_calls (req : Request) (st : State) :
  generate_calls (events (snd (unlink_if_exists req st))) = generate_calls (events st).
Proof.
  destruct (unlink_if_exists_events req st) as [-> | [p ->]]; [reflexivity |].
  rewrite generate_calls_app. apply app_nil_r.
Qed.

Lemma unlink_if_exists_responses (req : Request) (st : State) :
  responses (events (snd (unlink_if_exists req st))) = responses (events st).
Proof.
  destruct (unlink_if_exists_events req st) as [-> | [p ->]]; [reflexivity |].
  rewrite responses_app. apply app_nil_r.
Qed.

(** The [try] block of index.js on a stored file: the log line, the read,
    the call, and then either the bare delete and the answer, or the
    exception that leaves the block. *)
Lemma index_try_run (w : World) (req : Request) (f : UploadedFile) (x : File) (st : State) :
  file req = Some f -> fs st !! path f = Some x ->
  Index.analyze_image_try w req st =
    let st1 := emit (ev_console (log_image_received (size f) (mimetype f))) st in
    if readable x then
      let p := image_request "gemini-1.5-flash"
                 (or_default (prompt (body req)) "Analyze this image")
                 (mimetype f) (base64 (content x)) in
      let st2 := set_fs (meanwhile w (fs st)) (emit (ev_generate p) st1) in
      match upstream w p with
      | inl r =>
          match meanwhile w (fs st) !! path f with
          | Some _ =>
              (Returned tt,
               emit (ev_send {| status := statusCode st; payload := output_body (text r) |})
                 (emit (ev_unlink (path f))
                    (set_fs (delete (path f) (meanwhile w (fs st))) st2)))
          | None => (Threw (SystemError "ENOENT" "unlink" (path f)), st2)
          end
      | inr err => (Threw err, st2)
      end
    else (Threw (SystemError "EACCES" "open" (path f)), st1).
Proof.
  intros Hf Hx.
  unfold Index.analyze_image_try, req_file, bind, ret, console, readFileSync.
  rewrite Hf. simpl. rewrite Hx.
  destruct (readable x); [| reflexivity].
  unfold generateContent, image_request. simpl.
  destruct (upstream w _) as [r | err]; [| reflexivity].
  unfold unlinkSync. simpl.
  destruct (meanwhile w (fs st) !! path f); reflexivity.
Qed.

Lemma index_catch_run (req : Request) (err : JsError) (st : State) :
  Index.analyze_image_catch req err st =
    (Returned tt,
     emit (ev_send {| status := 500;
                      payload := json_body
                        (JObject [("error", JString "Gemini processing failed");
                                  ("details", JString (message err))]) |})
       (set_statusCode 500
          (snd (unlink_if_exists req (emit (ev_console (log_handler_error err)) st))))).
Proof.
  unfold Index.analyze_image_catch, bind, console. simpl.
  rewrite unlink_if_exists_returns. reflexivity.
Qed.

(** The same block of part_000: no log line, another model, another default. *)
Lemma part000_try_run (w : World) (req : Request) (f : UploadedFile) (x : File) (st : State) :
  file req = Some f -> fs st !! path f = Some x ->
  Part000.analyze_image_try w req st =
    if readable x then
      let p := image_request "gemini-2.0-flash"
                 (or_default (prompt (body req))
                    "Analyze this image and explain what you see")
                 (mimetype f) (base64 (content x)) in
      let st2 := set_fs (meanwhile w (fs st)) (emit (ev_generate p) st) in
      match upstream w p with
      | inl r =>
          match meanwhile w (fs st) !! path f with
          | Some _ =>
              (Returned tt,
               emit (ev_send {| status := statusCode st; payload := output_body (text r) |})
                 (emit (ev_unlink (path f))
                    (set_fs (delete (path f) (meanwhile w (fs st))) st2)))
          | None => (Threw (SystemError "ENOENT" "unlink" (path f)), st2)
          end
      | inr err => (Threw err, st2)
      end
    else (Threw (SystemError "EACCES" "open" (path f)), st).
Proof.
  intros Hf Hx.
  unfold Part000.analyze_image_try, bind, ret, readFileSync.
  rewrite Hf. simpl. rewrite Hx.
  destruct (readable x); [| reflexivity].
  unfold generateContent, image_request. simpl.
  destruct (upstream w _) as [r | err]; [| reflexivity].
  unfold unlinkSync. simpl.
  destruct (meanwhile w (fs st) !! path f); reflexivity.
Qed.

Lemma part000_catch_run (req : Request) (err : JsError) (st : State) :
  Part000.analyze_image_catch req err st =
    (Returned tt,
     emit (ev_send {| status := 500;
                      payload := json_body
                        (JObject [("error", JString "Image analysis failed")]) |})
       (set_statusCode 500
          (snd (unlink_if_exists req (emit (ev_console (log_handler_error err)) st))))).
Proof.
  unfold Part000.analyze_image_catch, bind, console. simpl.
  rewrite unlink_if_exists_returns. reflexivity.
Qed.

(** ** The temporary file *)

Ltac count_unlinks :=
  simpl; rewrite ?unlinks_of_app; unfold unlinks_of; simpl;
  rewrite ?String.eqb_refl; simpl; lia.

(** C1.  When [req.file] describes a file that is on disk (under a
    non-empty path, as multer's are) and that nothing else removes while the
    handler waits, the POST /analyze-image handler of either file returns
    with that file gone and with exactly one removal of its path in the
    trace.  This covers every way the run can go: the read fails on the
    stored file, the upstream call fails, the upstream call succeeds. *)
Theorem temp_file_deleted_exactly_once
    (w : World) (req : Request) (f : UploadedFile) (st : State) :
  file req = Some f ->
  truthy (path f) = true ->
  is_Some (fs st !! path f) ->
  private w (path f) ->
  (exists st',
      Index.analyze_image w req st = (Returned tt, st') /\
      fs st' !! path f = None /\
      unlinks_of (path f) (events st') = S (unlinks_of (path f) (events st))) /\
  (exists st',
      Part000.analyze_image w req st = (Returned tt, st') /\
      fs st' !! path f = None /\
      unlinks_of (path f) (events st') = S (unlinks_of (path f) (events st))).
Proof.
  intros Hf Ht [x Hx] Hpriv.
  assert (Hstill : is_Some (meanwhile w (fs st) !! path f)) by (apply Hpriv; eauto).
  split.
  - unfold Index.analyze_image, try_catch.
    rewrite (index_try_run w req f x st Hf Hx). simpl.
    destruct (readable x).
    + destruct (upstream w _) as [r | err].
      * destruct Hstill as [y Hy]. rewrite Hy.
        eexists. split; [reflexivity |]. split; [apply lookup_delete_eq |].
        count_unlinks.
      * rewrite index_catch_run.
        rewrite (unlink_if_exists_present req f) by (simpl; auto).
        eexists. split; [reflexivity |]. split; [apply lookup_delete_eq |].
        count_unlinks.
    + rewrite index_catch_run.
      rewrite (unlink_if_exists_present req f) by (simpl; eauto).
      eexists. split; [reflexivity |]. split; [apply lookup_delete_eq |].
      count_unlinks.
  - unfold Part000.analyze_image, try_catch.
    rewrite (part000_try_run w req f x st Hf Hx). simpl.
    destruct (readable x).
    + destruct (upstream w _) as [r | err].
      * destruct Hstill as [y Hy]. rewrite Hy.
        eexists. split; [reflexivity |]. split; [apply lookup_delete_eq |].
        count_unlinks.
      * rewrite part000_catch_run.
        rewrite (unlink_if_exists_present req f) by (simpl; auto).
        eexists. split; [reflexivity |]. split; [apply lookup_delete_eq |].
        count_unlinks.
    + rewrite part000_catch_run.
      rewrite (unlink_if_exists_present req f) by (simpl; eauto).
      eexists. split; [reflexivity |]. split; [apply lookup_delete_eq |].
      count_unlinks.
Qed.

Lemma sample_disk_lookup :
  sample_disk !! "uploads/3f2a" = Some {| content := jpeg; readable := true |}.
Proof. apply lookup_singleton_eq. Qed.

Lemma answering_private (t : string) (p : string) : private (answering t) p.
Proof. intros m H. exact H. Defined.

Lemma failing_private (err : JsError) (p : string) : private (failing err) p.
Proof. intros m H. exact H. Defined.

(** C1 at the sample upload, the upstream answering. *)
Lemma temp_file_deleted_exactly_once_witness :
  (exists st',
      Index.analyze_image (answering "A cat.") (sample_request (Some "describe"))
        (fresh sample_disk) = (Returned tt, st') /\
      fs st' !! "uploads/3f2a" = None /\
      unlinks_of "uploads/3f2a" (events st') = 1%nat) /\
  (exists st',
      Part000.analyze_image (answering "A cat.") (sample_request (Some "describe"))
        (fresh sample_disk) = (Returned tt, st') /\
      fs st' !! "uploads/3f2a" = None /\
      unlinks_of "uploads/3f2a" (events st') = 1%nat).
Proof.
  apply (temp_file_deleted_exactly_once (answering "A cat.")
           (sample_request (Some "describe")) sample_file (fresh sample_disk)).
  - reflexivity.
  - reflexivity.
  - exists {| content := jpeg; readable := true |}. apply sample_disk_lookup.
  - apply answering_private.
Defined.

(** ** What is sent upstream and what is answered *)

(** C5.  A stored, readable upload with prompt text "describe", on a fresh
    response object and with the file left alone by everybody else: the
    handler of either file calls the generation API exactly once, with its
    model and one user turn of exactly two parts in this order, the text
    part "describe" and then the inline part holding the declared MIME type
    and the base64 of the file's bytes; and when that call answers with
    text [t], the one response sent is status 200 with body [{output: t}]. *)
Theorem describe_request_and_answer
    (w : World) (req : Request) (f : UploadedFile) (bytes : list byte) (st : State) :
  file req = Some f ->
  prompt (body req) = Some "describe" ->
  fs st !! path f = Some {| content := bytes; readable := true |} ->
  statusCode st = 200 ->
  private w (path f) ->
  (exists st',
      Index.analyze_image w req st = (Returned tt, st') /\
      generate_calls (events st')
      = generate_calls (events st)
        ++ [image_request "gemini-1.5-flash" "describe" (mimetype f) (base64 bytes)] /\
      forall t,
        upstream w (image_request "gemini-1.5-flash" "describe" (mimetype f) (base64 bytes))
        = inl {| text := t |} ->
        responses (events st')
        = responses (events st) ++ [{| status := 200; payload := output_body t |}]) /\
  (exists st',
      Part000.analyze_image w req st = (Returned tt, st') /\
      generate_calls (events st')
      = generate_calls (events st)
        ++ [image_request "gemini-2.0-flash" "describe" (mimetype f) (base64 bytes)] /\
      forall t,
        upstream w (image_request "gemini-2.0-flash" "describe" (mimetype f) (base64 bytes))
        = inl {| text := t |} ->
        responses (events st')
        = responses (events st) ++ [{| status := 200; payload := output_body t |}]).
Proof.
  intros Hf Hp Hx Hcode Hpriv.
  assert (Hstill : is_Some (meanwhile w (fs st) !! path f)) by (apply Hpriv; eauto).
  destruct Hstill as [y Hy].
  split.
  - unfold Index.analyze_image, try_catch.
    rewrite (index_try_run w req f _ st Hf Hx). simpl. rewrite Hp. simpl.
    destruct (upstream w _) as [r | err] eqn:Hup.
    + rewrite Hy. eexists. split; [reflexivity |]. simpl. split.
      * repeat (rewrite generate_calls_app; simpl). by rewrite !app_nil_r.
      * intros t [= ->]. repeat (rewrite responses_app; simpl).
        by rewrite Hcode, !app_nil_r.
    + rewrite index_catch_run.
      eexists. split; [reflexivity |]. simpl. split.
      * rewrite generate_calls_app, unlink_if_exists_calls. simpl.
        repeat (rewrite generate_calls_app; simpl). by rewrite !app_nil_r.
      * intros t [=].
  - unfold Part000.analyze_image, try_catch.
    rewrite (part000_try_run w req f _ st Hf Hx). simpl. rewrite Hp. simpl.
    destruct (upstream w _) as [r | err] eqn:Hup.
    + rewrite Hy. eexists. split; [reflexivity |]. simpl. split.
      * repeat (rewrite generate_calls_app; simpl). by rewrite !app_nil_r.
      * intros t [= ->]. repeat (rewrite responses_app; simpl).
        by rewrite Hcode, !app_nil_r.
    + rewrite part000_catch_run.
      eexists. split; [reflexivity |]. simpl. split.
      * rewrite generate_calls_app, unlink_if_exists_calls. simpl.
        repeat (rewrite generate_calls_app; simpl). by rewrite !app_nil_r.
      * intros t [=].
Qed.

(** C5 at the sample upload: the call carries the base64 of the four bytes,
    and the answer "A cat." comes back as [{output: "A cat."}], status 200. *)
Lemma describe_request_and_answer_witness :
  exists st',
    Index.analyze_image (answering "A cat.") (sample_request (Some "describe"))
      (fresh sample_disk) = (Returned tt, st') /\
    generate_calls (events st')
    = [image_request "gemini-1.5-flash" "describe" "image/jpeg" "/9j/4A=="] /\
    responses (events st') = [{| status := 200; payload := output_body "A cat." |}].
Proof.
  destruct (describe_request_and_answer (answering "A cat.")
              (sample_request (Some "describe")) sample_file jpeg (fresh sample_disk)
              eq_refl eq_refl sample_disk_lookup eq_refl
              (answering_private "A cat." "uploads/3f2a"))
    as [(st' & Hrun & Hcalls & Hanswer) _].
  exists st'. split; [exact Hrun |]. split; [exact Hcalls |].
  exact (Hanswer "A cat." eq_refl).
Defined.

(** [v || d]: [d] for [undefined] and for the empty string, else [v]. *)
Lemma or_default_missing (d : string) : or_default None d = d.
Proof. reflexivity. Qed.

Lemma or_default_empty (d : string) : or_default (Some "") d = d.
Proof. reflexivity. Qed.

Lemma or_default_given (s d : string) : s <> "" -> or_default (Some s) d = s.
Proof. intros H. destruct s; [congruence | reflexivity]. Qed.

(** The one call an image handler makes once it has read the file, whatever
    happens afterwards. *)
Lemma index_calls (w : World) (req : Request) (f : UploadedFile) (x : File) (st : State) :
  file req = Some f -> fs st !! path f = Some x -> readable x = true ->
  generate_calls (events (snd (Index.analyze_image w req st)))
  = generate_calls (events st)
    ++ [image_request "gemini-1.5-flash"
          (or_default (prompt (body req)) "Analyze this image")
          (mimetype f) (base64 (content x))].
Proof.
  intros Hf Hx Hr. unfold Index.analyze_image, try_catch.
  rewrite (index_try_run w req f x st Hf Hx). simpl. rewrite Hr.
  destruct (upstream w _) as [r | err];
    [destruct (meanwhile w (fs st) !! path f) |];
    rewrite ?index_catch_run; simpl;
    rewrite ?generate_calls_app, ?unlink_if_exists_calls; simpl;
    repeat (rewrite generate_calls_app; simpl); by rewrite ?app_nil_r.
Qed.

Lemma part000_calls (w : World) (req : Request) (f : UploadedFile) (x : File) (st : State) :
  file req = Some f -> fs st !! path f = Some x -> readable x = true ->
  generate_calls (events (snd (Part000.analyze_image w req st)))
  = generate_calls (events st)
    ++ [image_request "gemini-2.0-flash"
          (or_default (prompt (body req)) "Analyze this image and explain what you see")
          (mimetype f) (base64 (content x))].
Proof.
  intros Hf Hx Hr. unfold Part000.analyze_image, try_catch.
  rewrite (part000_try_run w req f x st Hf Hx). simpl. rewrite Hr.
  destruct (upstream w _) as [r | err];
    [destruct (meanwhile w (fs st) !! path f) |];
    rewrite ?part000_catch_run; simpl;
    rewrite ?generate_calls_app, ?unlink_if_exists_calls; simpl;
    repeat (rewrite generate_calls_app; simpl); by rewrite ?app_nil_r.
Qed.

(** C6.  Once the upload has been read, the text part of the one call the
    handler makes is the file's fixed default instruction ("Analyze this
    image" in index.js, "Analyze this image and explain what you see" in
    part_000) when [req.body.prompt] is missing or the empty string, and is
    the prompt itself, unchanged, when it is a non-empty string. *)
Theorem prompt_default_or_unchanged
    (w : World) (req : Request) (f : UploadedFile) (x : File) (st : State) :
  file req = Some f ->
  fs st !! path f = Some x ->
  readable x = true ->
  exists instruction_index instruction_part000,
    generate_calls (events (snd (Index.analyze_image w req st)))
    = generate_calls (events st)
      ++ [image_request "gemini-1.5-flash" instruction_index
            (mimetype f) (base64 (content x))] /\
    generate_calls (events (snd (Part000.analyze_image w req st)))
    = generate_calls (events st)
      ++ [image_request "gemini-2.0-flash" instruction_part000
            (mimetype f) (base64 (content x))] /\
    (prompt (body req) = None \/ prompt (body req) = Some "" ->
       instruction_index = "Analyze this image" /\
       instruction_part000 = "Analyze this image and explain what you see") /\
    (forall s, prompt (body req) = Some s -> s <> "" ->
       instruction_index = s /\ instruction_part000 = s).
Proof.
  intros Hf Hx Hr.
  exists (or_default (prompt (body req)) "Analyze this image"),
         (or_default (prompt (body req)) "Analyze this image and explain what you see").
  split; [by apply index_calls |]. split; [by apply part000_calls |]. split.
  - intros [-> | ->]; by split.
  - intros s -> Hs. split; by apply or_default_given.
Qed.

(** C6 at the sample upload sent without a prompt: the default goes out. *)
Lemma prompt_default_or_unchanged_witness :
  generate_calls (events (snd (Index.analyze_image (answering "A cat.")
                                 (sample_request None) (fresh sample_disk))))
  = [image_request "gemini-1.5-flash" "Analyze this image" "image/jpeg" "/9j/4A=="] /\
  generate_calls (events (snd (Part000.analyze_image (answering "A cat.")
                                 (sample_request None) (fresh sample_disk))))
  = [image_request "gemini-2.0-flash" "Analyze this image and explain what you see"
       "image/jpeg" "/9j/4A=="].
Proof.
  destruct (prompt_default_or_unchanged (answering "A cat.") (sample_request None)
              sample_file _ (fresh sample_disk) eq_refl sample_disk_lookup eq_refl)
    as (i & j & Hi & Hj & Hdefault & _).
  destruct (Hdefault (or_introl eq_refl)) as [-> ->].
  split; [exact Hi | exact Hj].
Defined.

(** ** Upstream failures *)

Lemma part000_try_no_file (w : World) (req : Request) (st : State) :
  file req = None ->
  Part000.analyze_image_try w req st =
    (Returned tt,
     emit (ev_send {| status := 400;
                      payload := json_body (JObject [("error", JString "Image is required")]) |})
       (set_statusCode 400 st)).
Proof. intros Hf. unfold Part000.analyze_image_try. by rewrite Hf. Qed.

Lemma part000_try_missing (w : World) (req : Request) (f : UploadedFile) (st : State) :
  file req = Some f -> fs st !! path f = None ->
  Part000.analyze_image_try w req st = (Threw (SystemError "ENOENT" "open" (path f)), st).
Proof.
  intros Hf Hx. unfold Part000.analyze_image_try, bind, readFileSync.
  by rewrite Hf, Hx.
Qed.

(** What the [catch] block of part_000 answers is one constant. *)
Lemma part000_catch_responses (req : Request) (err : JsError) (st : State) :
  responses (events (snd (Part000.analyze_image_catch req err st)))
  = responses (events st)
    ++ [{| status := 500;
           payload := json_body (JObject [("error", JString "Image analysis failed")]) |}].
Proof.
  rewrite part000_catch_run. simpl.
  rewrite responses_app, unlink_if_exists_responses. simpl.
  rewrite responses_app. simpl. by rewrite app_nil_r.
Qed.

Lemma part000_hides_upstream_error : hides_upstream_error Part000.analyze_image.
Proof.
  intros w1 w2 req st H1 H2 _. unfold Part000.analyze_image, try_catch.
  destruct (file req) as [f |] eqn:Hf.
  - destruct (fs st !! path f) as [x |] eqn:Hx.
    + rewrite !(part000_try_run _ req f x st Hf Hx). simpl.
      destruct (readable x).
      * destruct (H1 (image_request "gemini-2.0-flash"
                        (or_default (prompt (body req))
                           "Analyze this image and explain what you see")
                        (mimetype f) (base64 (content x)))) as [e1 ->].
        destruct (H2 (image_request "gemini-2.0-flash"
                        (or_default (prompt (body req))
                           "Analyze this image and explain what you see")
                        (mimetype f) (base64 (content x)))) as [e2 ->].
        rewrite !part000_catch_responses. simpl.
        by rewrite !responses_app.
      * by rewrite !part000_catch_responses.
    + rewrite !(part000_try_missing _ req f st Hf Hx).
      by rewrite !part000_catch_responses.
  - by rewrite !(part000_try_no_file _ req st Hf).
Qed.

(** C7, as the spec states it, fails on index.js: its [catch] block copies
    [err.message] into the body ([details]), so the upstream's own words
    reach the client, and two upstream errors give two different answers. *)
Lemma index_answers_with_upstream_message :
  responses (events (snd (Index.analyze_image
                            (failing (ApiError "API key not valid: AIza-0001"))
                            (sample_request None) (fresh sample_disk))))
  = [{| status := 500;
        payload := json_body
          (JObject [("error", JString "Gemini processing failed");
                    ("details", JString "API key not valid: AIza-0001")]) |}]
  /\ ~ hides_upstream_error Index.analyze_image.
Proof.
  split; [by vm_compute |].
  intros H.
  specialize (H (failing (ApiError "quota exceeded")) (failing (ApiError "model overloaded"))
                (sample_request None) (fresh sample_disk)).
  assert (Hfails : forall err, upstream_fails (failing err)) by (intros err p; by exists err).
  specialize (H (Hfails _) (Hfails _) (fun _ => eq_refl)).
  vm_compute in H. discriminate H.
Qed.

(** C7, amended.  On a stored, readable upload whose upstream call fails
    with [err], either handler logs [err], and answers once with status 500.
    The body of index.js is [{error: "Gemini processing failed", details:
    err.message}], the upstream's message verbatim; the body of part_000 is
    the constant [{error: "Image analysis failed"}], and what part_000
    answers never depends on what the upstream's error says. *)
Theorem upstream_failure_answer
    (w : World) (req : Request) (f : UploadedFile) (x : File) (st : State)
    (err : JsError) :
  file req = Some f ->
  fs st !! path f = Some x ->
  readable x = true ->
  (upstream w (image_request "gemini-1.5-flash"
                 (or_default (prompt (body req)) "Analyze this image")
                 (mimetype f) (base64 (content x))) = inr err ->
   exists st',
     Index.analyze_image w req st = (Returned tt, st') /\
     In (ev_console (log_handler_error err)) (events st') /\
     responses (events st')
     = responses (events st)
       ++ [{| status := 500;
              payload := json_body
                (JObject [("error", JString "Gemini processing failed");
                          ("details", JString (message err))]) |}]) /\
  (upstream w (image_request "gemini-2.0-flash"
                 (or_default (prompt (body req))
                    "Analyze this image and explain what you see")
                 (mimetype f) (base64 (content x))) = inr err ->
   exists st',
     Part000.analyze_image w req st = (Returned tt, st') /\
     In (ev_console (log_handler_error err)) (events st') /\
     responses (events st')
     = responses (events st)
       ++ [{| status := 500;
              payload := json_body
                (JObject [("error", JString "Image analysis failed")]) |}]) /\
  hides_upstream_error Part000.analyze_image.
Proof.
  intros Hf Hx Hr. split; [| split; [| exact part000_hides_upstream_error]].
  - intros Hup. unfold Index.analyze_image, try_catch.
    rewrite (index_try_run w req f x st Hf Hx). simpl. rewrite Hr, Hup.
    rewrite index_catch_run. eexists. split; [reflexivity |]. simpl. split.
    + apply in_or_app. left.
      destruct (unlink_if_exists_events req
                  (emit (ev_console (log_handler_error err))
                     (set_fs (meanwhile w (fs st))
                        (emit (ev_generate
                                 (image_request "gemini-1.5-flash"
                                    (or_default (prompt (body req)) "Analyze this image")
                                    (mimetype f) (base64 (content x))))
                           (emit (ev_console (log_image_received (size f) (mimetype f))) st)))))
        as [-> | [p ->]]; simpl; rewrite ?in_app_iff; simpl; tauto.
    + rewrite responses_app, unlink_if_exists_responses. simpl.
      repeat (rewrite responses_app; simpl). by rewrite !app_nil_r.
  - intros Hup. unfold Part000.analyze_image, try_catch.
    rewrite (part000_try_run w req f x st Hf Hx). simpl. rewrite Hr, Hup.
    rewrite part000_catch_run. eexists. split; [reflexivity |]. simpl. split.
    + apply in_or_app. left.
      destruct (unlink_if_exists_events req
                  (emit (ev_console (log_handler_error err))
                     (set_fs (meanwhile w (fs st))
                        (emit (ev_generate
                                 (image_request "gemini-2.0-flash"
                                    (or_default (prompt (body req))
                                       "Analyze this image and explain what you see")
                                    (mimetype f) (base64 (content x))))
                           st))))
        as [-> | [p ->]]; simpl; rewrite ?in_app_iff; simpl; tauto.
    + rewrite responses_app, unlink_if_exists_responses. simpl.
      repeat (rewrite responses_app; simpl). by rewrite !app_nil_r.
Qed.

(** C7 at the sample upload, the upstream failing with "quota exceeded". *)
Lemma upstream_failure_answer_witness :
  (exists st',
      Index.analyze_image (failing (ApiError "quota exceeded")) (sample_request None)
        (fresh sample_disk) = (Returned tt, st') /\
      In (ev_console (log_handler_error (ApiError "quota exceeded"))) (events st') /\
      responses (events st')
      = [{| status := 500;
            payload := json_body
              (JObject [("error", JString "Gemini processing failed");
                        ("details", JString "quota exceeded")]) |}]) /\
  (exists st',
      Part000.analyze_image (failing (ApiError "quota exceeded")) (sample_request None)
        (fresh sample_disk) = (Returned tt, st') /\
      In (ev_console (log_handler_error (ApiError "quota exceeded"))) (events st') /\
      responses (events st')
      = [{| status := 500;
            payload := json_body
              (JObject [("error", JString "Image analysis failed")]) |}]).
Proof.
  destruct (upstream_failure_answer (failing (ApiError "quota exceeded"))
              (sample_request None) sample_file _ (fresh sample_disk)
              (ApiError "quota exceeded") eq_refl sample_disk_lookup eq_refl)
    as (Hindex & Hpart000 & _).
  split; [exact (Hindex eq_refl) | exact (Hpart000 eq_refl)].
Defined.

(** ** GET /test-gemini *)

(** C8.  GET /test-gemini makes one text-only call.  When it succeeds with
    text [t], part_000 answers [{success: true, output: t}] and index.js
    answers [{output: t}].  When it fails with [err], part_000 answers
    status 500 with [{success: false, error: "Gemini API test failed"}],
    while index.js, which has no [try] around the call, sends nothing and
    lets [err] escape the handler. *)
Theorem test_gemini_answers (w : World) (req : Request) (st : State) :
  match upstream w (text_request "gemini-2.0-flash"
                      "Say 'Gemini API is working' in one sentence.") with
  | inl r =>
      exists st',
        Part000.test_gemini w req st = (Returned tt, st') /\
        responses (events st')
        = responses (events st)
          ++ [{| status := statusCode st;
                 payload := json_body (JObject [("success", JBool true);
                                                ("output", JString (text r))]) |}]
  | inr err =>
      exists st',
        Part000.test_gemini w req st = (Returned tt, st') /\
        responses (events st')
        = responses (events st)
          ++ [{| status := 500;
                 payload := json_body (JObject [("success", JBool false);
                                                ("error", JString "Gemini API test failed")]) |}]
  end /\
  match upstream w (text_request "gemini-1.5-flash" "Say hello") with
  | inl r =>
      exists st',
        Index.test_gemini w req st = (Returned tt, st') /\
        responses (events st')
        = responses (events st)
          ++ [{| status := statusCode st;
                 payload := json_body (JObject [("output", JString (text r))]) |}]
  | inr err =>
      exists st',
        Index.test_gemini w req st = (Threw err, st') /\
        responses (events st') = responses (events st)
  end.
Proof.
  split.
  - unfold Part000.test_gemini, try_catch, bind, generateContent, text_request.
    destruct (upstream w _) as [r | err]; simpl;
      eexists; (split; [reflexivity |]); simpl;
      repeat (rewrite responses_app; simpl); by rewrite ?app_nil_r.
  - unfold Index.test_gemini, bind, generateContent, text_request.
    destruct (upstream w _) as [r | err]; simpl;
      eexists; (split; [reflexivity |]); simpl;
      repeat (rewrite responses_app; simpl); by rewrite ?app_nil_r.
Qed.

(** ** The upload filter of part_000 *)

(** C9.  [fileFilter] calls its callback with the error and then, having no
    [return], calls it again with [(null, true)]: twice for a file whose
    MIME type does not start with "image/", once for an image, and in both
    cases the last call signals acceptance. *)
Theorem fileFilter_accepts_after_rejecting (file : UploadedFile) :
  Part000.fileFilter file
  = (if String.prefix "image/" (mimetype file)
     then [cb_accept true]
     else [cb_error (PlainError "Only image files allowed"); cb_accept true]) /\
  last (Part000.fileFilter file) = Some (cb_accept true).
Proof.
  unfold Part000.fileFilter.
  destruct (String.prefix "image/" (mimetype file)); by split.
Qed.

Example fileFilter_pdf :
  Part000.fileFilter
    {| fieldname := "image"; originalname := "a.pdf"; mimetype := "application/pdf";
       path := ""; size := 0 |}
  = [cb_error (PlainError "Only image files allowed"); cb_accept true].
Proof. reflexivity. Qed.

Example fileFilter_png :
  Part000.fileFilter
    {| fieldname := "image"; originalname := "a.png"; mimetype := "image/png";
       path := ""; size := 0 |}
  = [cb_accept true].
Proof. reflexivity. Qed.

(** ** Deleting: the bare delete and the guarded one *)

(** C4, as the spec states it, fails on the success path of both handlers:
    the delete there is a bare [unlinkSync] with no existence check.  On a
    handle that is not on disk it throws; and when the stored file is removed
    by something else while the handler waits for the upstream, the
    handler's own delete throws ENOENT although the upstream answered, and
    the client gets the 500 of the [catch] block. *)
Lemma bare_delete_throws_on_removed_file :
  unlinkSync "uploads/3f2a" (fresh ∅)
  = (Threw (SystemError "ENOENT" "unlink" "uploads/3f2a"), fresh ∅)
  /\ In (ev_console (log_handler_error (SystemError "ENOENT" "unlink" "uploads/3f2a")))
        (events (snd (Index.analyze_image (sweeping "A cat." "uploads/3f2a")
                        (sample_request None) (fresh sample_disk))))
  /\ responses (events (snd (Index.analyze_image (sweeping "A cat." "uploads/3f2a")
                              (sample_request None) (fresh sample_disk))))
     = [{| status := 500;
           payload := json_body
             (JObject [("error", JString "Gemini processing failed");
                       ("details",
                         JString "ENOENT: no such file or directory, unlink 'uploads/3f2a'")]) |}]
  /\ responses (events (snd (Part000.analyze_image (sweeping "A cat." "uploads/3f2a")
                              (sample_request None) (fresh sample_disk))))
     = [{| status := 500;
           payload := json_body (JObject [("error", JString "Image analysis failed")]) |}].
Proof.
  split; [reflexivity |]. split; [| split].
  - vm_compute. tauto.
  - by vm_compute.
  - by vm_compute.
Qed.

(** C4, amended.  The guarded delete of the [catch] blocks checks existence
    before removal and therefore never throws: it returns from every state;
    run a second time it changes nothing; on a handle that is not on disk
    it changes nothing; and it leaves every other path as it was.  The
    delete of the success path is not guarded, but what it throws is caught
    by the handler's own [catch]: neither handler lets an exception out. *)
Theorem guarded_delete_is_idempotent (req : Request) (st : State) :
  (exists st',
      unlink_if_exists req st = (Returned tt, st') /\
      unlink_if_exists req st' = (Returned tt, st') /\
      (forall f, file req = Some f -> fs st !! path f = None -> st' = st) /\
      (forall q, (forall f, file req = Some f -> q <> path f) ->
                 fs st' !! q = fs st !! q)) /\
  (forall w, fst (Index.analyze_image w req st) = Returned tt /\
             fst (Part000.analyze_image w req st) = Returned tt).
Proof.
  split.
  - exists (snd (unlink_if_exists req st)).
    split; [apply unlink_if_exists_returns |].
    unfold unlink_if_exists, bind, existsSync, unlinkSync, ret.
    destruct (file req) as [f |] eqn:Hf; [| repeat split; done].
    destruct (truthy (path f)) eqn:Ht; [| repeat split; done].
    destruct (fs st !! path f) as [x |] eqn:Hx.
    + rewrite (bool_decide_eq_true_2 (is_Some (Some x))) by eauto.
      rewrite Hx. simpl. rewrite lookup_delete_eq.
      rewrite bool_decide_eq_false_2 by (intros [? ?]; discriminate).
      split; [reflexivity |]. split; [intros g [= <-] Hg; congruence |].
      intros q Hq. apply lookup_delete_ne.
      intros Heq. exact (Hq f eq_refl (eq_sym Heq)).
    + rewrite (bool_decide_eq_false_2 (is_Some (@None File)))
        by (intros [? ?]; discriminate).
      simpl. rewrite Hx.
      rewrite (bool_decide_eq_false_2 (is_Some (@None File)))
        by (intros [? ?]; discriminate).
      repeat split; done.
  - intros w. split.
    + destruct (triple_returns _ _ _ st (index_analyze_image_sent w req _) eq_refl)
        as ([] & st' & -> & _). reflexivity.
    + destruct (triple_returns _ _ _ st (part000_analyze_image_sent w req _) eq_refl)
        as ([] & st' & -> & _). reflexivity.
Qed.

(** ** Through the whole stack: requests without an image *)

(** C3 on index.js: POST /analyze-image with no file part.  multer leaves
    [req.file] undefined; the handler has no test for that, reads
    [req.file.size], and the TypeError lands in its [catch]: the answer is
    500 "Gemini processing failed", not 400.  Nothing is written to disk and
    the upstream is not called. *)
Theorem index_missing_image_is_500
    (w : World) (tmp : string) (p : option string) (m : gmap string File) :
  exists st',
    handle (Index.app w tmp) None (bare_request p) (fresh m) = (stopped, st') /\
    fs st' = m /\
    generate_calls (events st') = [] /\
    responses (events st')
    = [{| status := 500;
          payload := json_body
            (JObject [("error", JString "Gemini processing failed");
                      ("details",
                        JString "Cannot read properties of undefined (reading 'size')")]) |}].
Proof. eexists. split; [reflexivity |]. by repeat split. Qed.

(** The same request on part_000, which tests [!req.file] first: 400 "Image
    is required", nothing written, no upstream call. *)
Lemma part000_missing_image_is_400
    (w : World) (tmp : string) (p : option string) (m : gmap string File) :
  exists st',
    handle (Part000.app w tmp) None (bare_request p) (fresh m) = (stopped, st') /\
    fs st' = m /\
    generate_calls (events st') = [] /\
    responses (events st')
    = [{| status := 400;
          payload := json_body (JObject [("error", JString "Image is required")]) |}].
Proof. eexists. split; [reflexivity |]. by repeat split. Qed.

(** ** Through the whole stack: an accepted upload *)

(** multer on a file it accepts, within the limit: the bytes are on disk
    under [dest], [req.file] describes them, [req.body] holds the prompt. *)
Lemma single_stores
    (opts : MulterOptions) (tmp filename type : string) (bytes : list byte)
    (p : option string) (st : State) :
  default allowAll (fileFilter_opt opts)
    {| fieldname := "image"; originalname := filename; mimetype := type;
       path := ""; size := 0 |} = [cb_accept true] ->
  N.of_nat (length bytes) <= limits_fileSize opts ->
  single opts "image" tmp (upload_request filename type bytes p) st
  = (Returned
       (next {| method := POST; url := "/analyze-image";
                multipart := multipart (upload_request filename type bytes p);
                file := Some {| fieldname := "image"; originalname := filename;
                                mimetype := type; path := (dest opts ++ tmp)%string;
                                size := N.of_nat (length bytes) |};
                body := {| prompt := p |} |}),
     set_fs (<[(dest opts ++ tmp)%string := {| content := bytes; readable := true |}]>
               (fs st)) st).
Proof.
  intros Hfilter Hsize. unfold single, upload_request. simpl.
  rewrite Hfilter. apply N.ltb_ge in Hsize. by rewrite Hsize.
Qed.

(** The sample request and the sample disk are what multer makes of the
    sample upload. *)
Example single_sample (p : option string) :
  single Index.upload "image" "3f2a" (upload_request "cat.jpg" "image/jpeg" jpeg p)
    (fresh ∅)
  = (Returned (next (sample_request p)), fresh sample_disk).
Proof. reflexivity. Qed.

(** An image within the limit, a private temporary file, an upstream that
    answers [t]: index.js answers 200 [{output: t}] and the file multer
    stored is gone when the request is over. *)
Lemma index_accepted_upload
    (w : World) (tmp filename type : string) (bytes : list byte)
    (p : option string) (m : gmap string File) (t : string) :
  N.of_nat (length bytes) <= 10 * 1024 * 1024 ->
  private w ("uploads/" ++ tmp)%string ->
  upstream w (image_request "gemini-1.5-flash" (or_default p "Analyze this image")
                type (base64 bytes)) = inl {| text := t |} ->
  exists st',
    handle (Index.app w tmp) None (upload_request filename type bytes p) (fresh m)
    = (stopped, st') /\
    fs st' !! ("uploads/" ++ tmp)%string = None /\
    responses (events st') = [{| status := 200; payload := output_body t |}].
Proof.
  intros Hsize Hpriv Hup. unfold Index.app.
  cbn [handle method_eqb method url upload_request andb String.eqb Ascii.eqb
       Bool.eqb run_route cors ret].
  rewrite single_stores; [| reflexivity | exact Hsize].
  unfold async_handler, Index.analyze_image, try_catch, bind.
  erewrite index_try_run; [| reflexivity | apply lookup_insert_eq].
  cbn [readable content mimetype body prompt file]. rewrite Hup.
  destruct (Hpriv (<[("uploads/" ++ tmp)%string := {| content := bytes; readable := true |}]> m))
    as [y Hy]; [rewrite lookup_insert_eq; eauto |].
  cbn [fs set_fs fresh path dest Index.upload] in *. rewrite Hy.
  eexists. split; [reflexivity |]. split; [apply lookup_delete_eq |].
  cbn [events emit set_fs fresh statusCode].
  repeat (rewrite responses_app; simpl). reflexivity.
Qed.

(** ** Through the whole stack: uploads over the size limit *)

(** multer on a file it accepts and that is over [limits.fileSize]: the error
    goes to [next], the disk is as before. *)
Lemma single_rejects_oversize
    (opts : MulterOptions) (tmp filename type : string) (bytes : list byte)
    (p : option string) (st : State) :
  default allowAll (fileFilter_opt opts)
    {| fieldname := "image"; originalname := filename; mimetype := type;
       path := ""; size := 0 |} = [cb_accept true] ->
  limits_fileSize opts < N.of_nat (length bytes) ->
  single opts "image" tmp (upload_request filename type bytes p) st
  = (Returned (next_error (MulterError "LIMIT_FILE_SIZE")), st).
Proof.
  intros Hfilter Hsize. unfold single, upload_request. simpl.
  rewrite Hfilter. apply N.ltb_lt in Hsize. by rewrite Hsize.
Qed.

Lemma part000_filter_image (filename type : string) :
  String.prefix "image/" type = true ->
  default allowAll (fileFilter_opt Part000.upload)
    {| fieldname := "image"; originalname := filename; mimetype := type;
       path := ""; size := 0 |} = [cb_accept true].
Proof. intros H. simpl. unfold Part000.fileFilter. simpl. by rewrite H. Qed.

Arguments single : simpl never.

(** part_000 registers no error middleware: the error of an oversize image
    passes the end of the stack, and Express's own last resort answers. *)
Lemma part000_oversize_handled
    (w : World) (tmp filename type : string) (bytes : list byte)
    (p : option string) (m : gmap string File) :
  String.prefix "image/" type = true ->
  5 * 1024 * 1024 < N.of_nat (length bytes) ->
  handle (Part000.app w tmp) None (upload_request filename type bytes p) (fresh m)
  = (stopped, emit (ev_send {| status := 500; payload := html_body |}) (fresh m)).
Proof.
  intros Htype Hsize. unfold Part000.app. simpl.
  rewrite single_rejects_oversize;
    [reflexivity | by apply part000_filter_image | exact Hsize].
Qed.

(** index.js registers its error middleware before the routes (line 28, the
    routes follow from line 49).  Express looks for error middleware only
    after the layer that raised the error, so the error of an oversize upload
    never meets it and is answered by Express's last resort as well. *)
Lemma index_error_middleware_is_not_reached
    (w : World) (tmp filename type : string) (bytes : list byte)
    (p : option string) (m : gmap string File) :
  10 * 1024 * 1024 < N.of_nat (length bytes) ->
  handle (Index.app w tmp) None (upload_request filename type bytes p) (fresh m)
  = (stopped, emit (ev_send {| status := 500; payload := html_body |}) (fresh m)).
Proof.
  intros Hsize. unfold Index.app. simpl.
  rewrite single_rejects_oversize; [reflexivity | reflexivity | exact Hsize].
Qed.

(** C2, as the spec states it, fails on part_000: an image of 5 MB and one
    byte is answered with status 500 and an HTML page by Express's last
    resort; no 400 and no JSON body is produced, since nothing in the file
    catches the error multer raises. *)
Lemma part000_oversize_upload_is_not_caught :
  handle (Part000.app (answering "A cat.") "3f2a") None
    (upload_request "big.png" "image/png" (List.repeat x00 (N.to_nat 5242881)) None)
    (fresh ∅)
  = (stopped, emit (ev_send {| status := 500; payload := html_body |}) (fresh ∅)).
Proof.
  apply part000_oversize_handled; [reflexivity |].
  rewrite List.repeat_length, N2Nat.id. reflexivity.
Qed.

(** C2, amended.  An image over the configured [fileSize] (5 MB in
    part_000, 10 MB in index.js) makes multer fail the request with a
    [MulterError] of code [LIMIT_FILE_SIZE] and leave the disk as it was.
    In part_000, which has no error middleware, the route handler does not
    run and the request is answered once, by Express's last resort, with
    status 500 and an HTML page.  The error middleware of index.js, whenever
    it is given a [MulterError], logs its code and answers status 400 with
    the JSON body [{error: "Upload error", details: code}]; any other error
    it passes on. *)
Theorem oversize_upload_answer
    (w : World) (tmp filename type : string) (bytes : list byte)
    (p : option string) (m : gmap string File) :
  String.prefix "image/" type = true ->
  (5 * 1024 * 1024 < N.of_nat (length bytes) ->
   single Part000.upload "image" tmp (upload_request filename type bytes p) (fresh m)
   = (Returned (next_error (MulterError "LIMIT_FILE_SIZE")), fresh m) /\
   handle (Part000.app w tmp) None (upload_request filename type bytes p) (fresh m)
   = (stopped, emit (ev_send {| status := 500; payload := html_body |}) (fresh m))) /\
  (10 * 1024 * 1024 < N.of_nat (length bytes) ->
   single Index.upload "image" tmp (upload_request filename type bytes p) (fresh m)
   = (Returned (next_error (MulterError "LIMIT_FILE_SIZE")), fresh m)) /\
  (forall code req st,
     Index.multer_error_handler (MulterError code) req st
     = (Returned ended,
        emit (ev_send {| status := 400;
                         payload := json_body
                           (JObject [("error", JString "Upload error");
                                     ("details", JString code)]) |})
          (set_statusCode 400 (emit (ev_console (log_multer_error code)) st)))) /\
  (forall err req st,
     (forall code, err <> MulterError code) ->
     Index.multer_error_handler err req st = (Returned (next_error err), st)).
Proof.
  intros Htype. split; [| split; [| split]].
  - intros Hsize. split.
    + apply single_rejects_oversize; [by apply part000_filter_image | exact Hsize].
    + by apply part000_oversize_handled.
  - intros Hsize. by apply single_rejects_oversize.
  - reflexivity.
  - intros err req st Hne. destruct err; try reflexivity. by destruct (Hne code).
Qed.

(** C2 at an image of 5 MB and one byte on part_000. *)
Lemma oversize_upload_answer_witness :
  single Part000.upload "image" "3f2a"
    (upload_request "big.png" "image/png" (List.repeat x00 (N.to_nat 5242881)) None)
    (fresh ∅)
  = (Returned (next_error (MulterError "LIMIT_FILE_SIZE")), fresh ∅) /\
  handle (Part000.app (answering "A cat.") "3f2a") None
    (upload_request "big.png" "image/png" (List.repeat x00 (N.to_nat 5242881)) None)
    (fresh ∅)
  = (stopped, emit (ev_send {| status := 500; payload := html_body |}) (fresh ∅)).
Proof.
  destruct (oversize_upload_answer (answering "A cat.") "3f2a" "big.png" "image/png"
              (List.repeat x00 (N.to_nat 5242881)) None ∅ eq_refl)
    as [Hpart000 _].
  apply Hpart000. rewrite List.repeat_length, N2Nat.id. reflexivity.
Defined.

(** * Further properties of the handlers *)

Lemma removals_app (l k : list Event) :
  removals (l ++ k) = removals l ++ removals k.
Proof. unfold removals. apply omap_app. Qed.

(** ** The guarded delete, case by case *)

(** Either there was nothing to remove under [req.file.path] and nothing
    changed, or the file was there and exactly that file was removed. *)
Lemma unlink_if_exists_cases (req : Request) (st : State) :
  (snd (unlink_if_exists req st) = st /\
   forall f, file req = Some f -> truthy (path f) = true -> fs st !! path f = None) \/
  (exists f, file req = Some f /\ truthy (path f) = true /\
             is_Some (fs st !! path f) /\
             snd (unlink_if_exists req st)
             = emit (ev_unlink (path f)) (set_fs (delete (path f) (fs st)) st)).
Proof.
  unfold unlink_if_exists, bind, existsSync, unlinkSync, ret.
  destruct (file req) as [f |] eqn:Hf; [| left; split; [reflexivity | discriminate]].
  destruct (truthy (path f)) eqn:Ht;
    [| left; split; [reflexivity | intros g [= <-]; congruence]].
  destruct (fs st !! path f) as [x |] eqn:Hx.
  - right. exists f. rewrite (bool_decide_eq_true_2 (is_Some (Some x))) by eauto.
    rewrite Hx. eauto.
  - left. rewrite (bool_decide_eq_false_2 (is_Some (@None File)))
      by (intros [? ?]; discriminate).
    split; [reflexivity | by intros g [= <-] _].
Qed.

(** After the guarded delete nothing is left under a truthy [req.file.path]. *)
Lemma unlink_if_exists_gone (req : Request) (f : UploadedFile) (st : State) :
  file req = Some f -> truthy (path f) = true ->
  fs (snd (unlink_if_exists req st)) !! path f = None.
Proof.
  intros Hf Ht. destruct (unlink_if_exists_cases req st) as [[-> H] | (g & Hg & _ & _ & ->)].
  - by apply H.
  - rewrite Hf in Hg. injection Hg as <-. simpl. apply lookup_delete_eq.
Qed.

(** ** The [try] blocks when there is nothing to read *)

Lemma index_try_no_file (w : World) (req : Request) (st : State) :
  file req = None ->
  Index.analyze_image_try w req st
  = (Threw (TypeError "Cannot read properties of undefined (reading 'size')"), st).
Proof. intros Hf. unfold Index.analyze_image_try, bind, req_file. by rewrite Hf. Qed.

Lemma index_try_missing (w : World) (req : Request) (f : UploadedFile) (st : State) :
  file req = Some f -> fs st !! path f = None ->
  Index.analyze_image_try w req st
  = (Threw (SystemError "ENOENT" "open" (path f)),
     emit (ev_console (log_image_received (size f) (mimetype f))) st).
Proof.
  intros Hf Hx. unfold Index.analyze_image_try, bind, req_file, console, readFileSync.
  rewrite Hf. simpl. by rewrite Hx.
Qed.

(** ** The [catch] blocks, fact by fact *)

Section Catch.
Variables (req : Request) (err : JsError) (st : State).

(** What a [catch] block leaves behind, given what it answers with. *)
Lemma catch_facts (catch : M unit) (r : Response) :
  catch st
  = (Returned tt,
     emit (ev_send r)
       (set_statusCode 500
          (snd (unlink_if_exists req (emit (ev_console (log_handler_error err)) st))))) ->
  let st' := snd (catch st) in
  responses (events st') = responses (events st) ++ [r] /\
  generate_calls (events st') = generate_calls (events st) /\
  (removals (events st') = removals (events st) \/
   exists f, file req = Some f /\ is_Some (fs st !! path f) /\
             removals (events st') = removals (events st) ++ [path f]) /\
  (forall f, file req = Some f -> truthy (path f) = true -> fs st' !! path f = None) /\
  (forall q, (forall f, file req = Some f -> q <> path f) -> fs st' !! q = fs st !! q).
Proof.
  intros ->. simpl.
  set (st0 := emit (ev_console (log_handler_error err)) st).
  assert (Hev : events st0 = events st ++ [ev_console (log_handler_error err)])
    by reflexivity.
  split; [| split; [| split; [| split]]].
  - rewrite responses_app, unlink_if_exists_responses, Hev, responses_app.
    simpl. by rewrite app_nil_r.
  - rewrite generate_calls_app, unlink_if_exists_calls, Hev, generate_calls_app.
    simpl. by rewrite !app_nil_r.
  - rewrite removals_app. simpl. rewrite app_nil_r.
    destruct (unlink_if_exists_cases req st0) as [[-> _] | (f & Hf & _ & Hx & ->)].
    + left. rewrite Hev, removals_app. simpl. by rewrite app_nil_r.
    + right. exists f. split; [exact Hf |]. split; [exact Hx |]. simpl.
      rewrite !removals_app. simpl. by rewrite app_nil_r.
  - intros f Hf Ht. by apply unlink_if_exists_gone.
  - intros q Hq.
    destruct (unlink_if_exists_cases req st0) as [[-> _] | (f & Hf & _ & _ & ->)];
      simpl; [reflexivity |].
    apply lookup_delete_ne. intros Heq. exact (Hq f Hf (eq_sym Heq)).
Qed.

Lemma index_catch_facts :
  let st' := snd (Index.analyze_image_catch req err st) in
  responses (events st') = responses (events st) ++ [index_failure (message err)] /\
  generate_calls (events st') = generate_calls (events st) /\
  (removals (events st') = removals (events st) \/
   exists f, file req = Some f /\ is_Some (fs st !! path f) /\
             removals (events st') = removals (events st) ++ [path f]) /\
  (forall f, file req = Some f -> truthy (path f) = true -> fs st' !! path f = None) /\
  (forall q, (forall f, file req = Some f -> q <> path f) -> fs st' !! q = fs st !! q).
Proof. apply catch_facts, index_catch_run. Qed.

Lemma part000_catch_facts :
  let st' := snd (Part000.analyze_image_catch req err st) in
  responses (events st') = responses (events st) ++ [part000_failure] /\
  generate_calls (events st') = generate_calls (events st) /\
  (removals (events st') = removals (events st) \/
   exists f, file req = Some f /\ is_Some (fs st !! path f) /\
             removals (events st') = removals (events st) ++ [path f]) /\
  (forall f, file req = Some f -> truthy (path f) = true -> fs st' !! path f = None) /\
  (forall q, (forall f, file req = Some f -> q <> path f) -> fs st' !! q = fs st !! q).
Proof. apply catch_facts, part000_catch_run. Qed.
End Catch.

(** ** Every run of an image handler is one of six paths *)

(** index.js: no [req.file]; no file on disk; a file that cannot be read;
    the upstream fails; the upstream answers but the file is gone when the
    handler resumes; the upstream answers and the file is removed. *)
Lemma index_paths (w : World) (req : Request) (st : State) :
  let logged f := emit (ev_console (log_image_received (size f) (mimetype f))) st in
  (file req = None /\
   Index.analyze_image w req st
   = Index.analyze_image_catch req
       (TypeError "Cannot read properties of undefined (reading 'size')") st) \/
  (exists f, file req = Some f /\ fs st !! path f = None /\
   Index.analyze_image w req st
   = Index.analyze_image_catch req (SystemError "ENOENT" "open" (path f)) (logged f)) \/
  (exists f x, file req = Some f /\ fs st !! path f = Some x /\ readable x = false /\
   Index.analyze_image w req st
   = Index.analyze_image_catch req (SystemError "EACCES" "open" (path f)) (logged f)) \/
  (exists f x err, file req = Some f /\ fs st !! path f = Some x /\ readable x = true /\
   upstream w (index_request req f x) = inr err /\
   Index.analyze_image w req st
   = Index.analyze_image_catch req err (resumed w (index_request req f x) (logged f))) \/
  (exists f x t, file req = Some f /\ fs st !! path f = Some x /\ readable x = true /\
   upstream w (index_request req f x) = inl {| text := t |} /\
   meanwhile w (fs st) !! path f = None /\
   Index.analyze_image w req st
   = Index.analyze_image_catch req (SystemError "ENOENT" "unlink" (path f))
       (resumed w (index_request req f x) (logged f))) \/
  (exists f x t, file req = Some f /\ fs st !! path f = Some x /\ readable x = true /\
   upstream w (index_request req f x) = inl {| text := t |} /\
   is_Some (meanwhile w (fs st) !! path f) /\
   Index.analyze_image w req st
   = (Returned tt, succeeded f t (resumed w (index_request req f x) (logged f)))).
Proof.
  intros logged. unfold Index.analyze_image, try_catch.
  destruct (file req) as [f |] eqn:Hf.
  2:{ left. split; [reflexivity |]. by rewrite index_try_no_file. }
  right. destruct (fs st !! path f) as [x |] eqn:Hx.
  2:{ left. exists f. repeat split; try done. by rewrite (index_try_missing w req f st). }
  right. rewrite (index_try_run w req f x st Hf Hx). simpl.
  destruct (readable x) eqn:Hr.
  2:{ left. by exists f, x. }
  right. fold (index_request req f x).
  destruct (upstream w (index_request req f x)) as [[t] | err] eqn:Hup.
  2:{ left. by exists f, x, err. }
  right. destruct (meanwhile w (fs st) !! path f) as [y |] eqn:Hy.
  - right. exists f, x, t. repeat split; eauto.
  - left. by exists f, x, t.
Qed.

(** part_000: the same paths, except that a missing [req.file] is answered
    by the early return. *)
Lemma part000_paths (w : World) (req : Request) (st : State) :
  (file req = None /\
   Part000.analyze_image w req st
   = (Returned tt, emit (ev_send image_required) (set_statusCode 400 st))) \/
  (exists f, file req = Some f /\ fs st !! path f = None /\
   Part000.analyze_image w req st
   = Part000.analyze_image_catch req (SystemError "ENOENT" "open" (path f)) st) \/
  (exists f x, file req = Some f /\ fs st !! path f = Some x /\ readable x = false /\
   Part000.analyze_image w req st
   = Part000.analyze_image_catch req (SystemError "EACCES" "open" (path f)) st) \/
  (exists f x err, file req = Some f /\ fs st !! path f = Some x /\ readable x = true /\
   upstream w (part000_request req f x) = inr err /\
   Part000.analyze_image w req st
   = Part000.analyze_image_catch req err (resumed w (part000_request req f x) st)) \/
  (exists f x t, file req = Some f /\ fs st !! path f = Some x /\ readable x = true /\
   upstream w (part000_request req f x) = inl {| text := t |} /\
   meanwhile w (fs st) !! path f = None /\
   Part000.analyze_image w req st
   = Part000.analyze_image_catch req (SystemError "ENOENT" "unlink" (path f))
       (resumed w (part000_request req f x) st)) \/
  (exists f x t, file req = Some f /\ fs st !! path f = Some x /\ readable x = true /\
   upstream w (part000_request req f x) = inl {| text := t |} /\
   is_Some (meanwhile w (fs st) !! path f) /\
   Part000.analyze_image w req st
   = (Returned tt, succeeded f t (resumed w (part000_request req f x) st))).
Proof.
  unfold Part000.analyze_image, try_catch.
  destruct (file req) as [f |] eqn:Hf.
  2:{ left. split; [reflexivity |]. by rewrite part000_try_no_file. }
  right. destruct (fs st !! path f) as [x |] eqn:Hx.
  2:{ left. exists f. repeat split; try done. by rewrite (part000_try_missing w req f st). }
  right. rewrite (part000_try_run w req f x st Hf Hx). simpl.
  destruct (readable x) eqn:Hr.
  2:{ left. by exists f, x. }
  right. fold (part000_request req f x).
  destruct (upstream w (part000_request req f x)) as [[t] | err] eqn:Hup.
  2:{ left. by exists f, x, err. }
  right. destruct (meanwhile w (fs st) !! path f) as [y |] eqn:Hy.
  - right. exists f, x, t. repeat split; eauto.
  - left. by exists f, x, t.
Qed.

(** Splits a goal about a run of an image handler along its paths; [Hrun]
    is the equation of the run on each. *)
Ltac by_paths paths w req st :=
  destruct (paths w req st)
    as [ [Hnone Hrun]
       | [ (f0 & Hsome & Hdisk & Hrun)
         | [ (f0 & x0 & Hsome & Hdisk & Hread & Hrun)
           | [ (f0 & x0 & err0 & Hsome & Hdisk & Hread & Hup & Hrun)
             | [ (f0 & x0 & t0 & Hsome & Hdisk & Hread & Hup & Hgone & Hrun)
               | (f0 & x0 & t0 & Hsome & Hdisk & Hread & Hup & Hstill & Hrun) ]]]]];
  rewrite Hrun; clear Hrun.

(** ** No leak *)

(** X1.  When [req.file] has a non-empty path, nothing exists under that
    path once the handler of either file has returned: whatever the disk
    held, whatever the upstream answered and whatever else happened to the
    disk while the handler waited. *)
Theorem nothing_left_under_upload_path
    (w : World) (req : Request) (f : UploadedFile) (st : State) :
  file req = Some f ->
  truthy (path f) = true ->
  fs (snd (Index.analyze_image w req st)) !! path f = None /\
  fs (snd (Part000.analyze_image w req st)) !! path f = None.
Proof.
  intros Hf Ht. split.
  - by_paths index_paths w req st;
      try (by apply index_catch_facts); try congruence.
    rewrite Hf in Hsome. injection Hsome as <-. simpl. apply lookup_delete_eq.
  - by_paths part000_paths w req st;
      try (by apply part000_catch_facts); try congruence.
    rewrite Hf in Hsome. injection Hsome as <-. simpl. apply lookup_delete_eq.
Qed.

(** X1 when the upload is swept off the disk while the handler waits. *)
Lemma nothing_left_under_upload_path_witness :
  fs (snd (Index.analyze_image (sweeping "A cat." "uploads/3f2a")
             (sample_request None) (fresh sample_disk))) !! "uploads/3f2a" = None /\
  fs (snd (Part000.analyze_image (sweeping "A cat." "uploads/3f2a")
             (sample_request None) (fresh sample_disk))) !! "uploads/3f2a" = None.
Proof.
  apply (nothing_left_under_upload_path (sweeping "A cat." "uploads/3f2a")
           (sample_request None) sample_file (fresh sample_disk));
    reflexivity.
Defined.

(** ** What a run does to the disk *)

Lemma resumed_removals (w : World) (p : GenerateParams) (st : State) :
  removals (events (resumed w p st)) = removals (events st).
Proof. simpl. rewrite removals_app. simpl. apply app_nil_r. Qed.

Lemma logged_removals (l : LogLine) (st : State) :
  removals (events (emit (ev_console l) st)) = removals (events st).
Proof. simpl. rewrite removals_app. simpl. apply app_nil_r. Qed.

Lemma succeeded_removals (f : UploadedFile) (t : string) (st : State) :
  removals (events (succeeded f t st)) = removals (events st) ++ [path f].
Proof. simpl. rewrite !removals_app. simpl. by rewrite app_nil_r. Qed.

(** X2.  A run of either image handler removes at most one file, and only
    the one under [req.file.path]; every other path holds at the end what it
    held at the start or what the rest of the world put there while the
    handler waited.  In particular the handlers create no file. *)
Theorem touches_only_its_upload (w : World) (req : Request) (st : State) :
  let ends st' :=
    (removals (events st') = removals (events st) \/
     exists f, file req = Some f /\
               removals (events st') = removals (events st) ++ [path f]) /\
    (forall q, (forall f, file req = Some f -> q <> path f) ->
               fs st' !! q = fs st !! q \/ fs st' !! q = meanwhile w (fs st) !! q) in
  ends (snd (Index.analyze_image w req st)) /\
  ends (snd (Part000.analyze_image w req st)).
Proof.
  intros ends. subst ends. cbv beta. split.
  - by_paths index_paths w req st.
    1-5: match goal with
         | |- context [Index.analyze_image_catch ?r ?e ?s] =>
             destruct (index_catch_facts r e s) as (_ & _ & Hrm & _ & Hfs)
         end.
    1-5: split;
      [ rewrite ?resumed_removals, ?logged_removals in Hrm;
        destruct Hrm as [-> | (g & Hg & _ & ->)]; [by left | right; by exists g]
      | intros q Hq; rewrite (Hfs q Hq); simpl; by auto ].
    cbn [snd]. split.
    + right. exists f0. split; [exact Hsome |].
      by rewrite succeeded_removals, resumed_removals, logged_removals.
    + intros q Hq. right. simpl. apply lookup_delete_ne.
      intros Heq. exact (Hq f0 Hsome (eq_sym Heq)).
  - by_paths part000_paths w req st.
    2-5: match goal with
         | |- context [Part000.analyze_image_catch ?r ?e ?s] =>
             destruct (part000_catch_facts r e s) as (_ & _ & Hrm & _ & Hfs)
         end.
    2-5: split;
      [ rewrite ?resumed_removals in Hrm;
        destruct Hrm as [-> | (g & Hg & _ & ->)]; [by left | right; by exists g]
      | intros q Hq; rewrite (Hfs q Hq); simpl; by auto ].
    + split; [left; simpl; rewrite removals_app; simpl; by rewrite app_nil_r |].
      intros q _. by left.
    + cbn [snd]. split.
      * right. exists f0. split; [exact Hsome |].
        by rewrite succeeded_removals, resumed_removals.
      * intros q Hq. right. simpl. apply lookup_delete_ne.
        intros Heq. exact (Hq f0 Hsome (eq_sym Heq)).
Qed.

(** ** What a run asks of the upstream *)

Lemma resumed_calls (w : World) (p : GenerateParams) (st : State) :
  generate_calls (events (resumed w p st)) = generate_calls (events st) ++ [p].
Proof. simpl. by rewrite generate_calls_app. Qed.

Lemma logged_calls (l : LogLine) (st : State) :
  generate_calls (events (emit (ev_console l) st)) = generate_calls (events st).
Proof. simpl. rewrite generate_calls_app. simpl. apply app_nil_r. Qed.

Lemma succeeded_calls (f : UploadedFile) (t : string) (st : State) :
  generate_calls (events (succeeded f t st)) = generate_calls (events st).
Proof. simpl. rewrite !generate_calls_app. simpl. by rewrite !app_nil_r. Qed.

(** X3.  The calls a run of an image handler makes to the generation API
    are a function of the request and the disk alone: exactly one call,
    built from the prompt, the declared type and the bytes read, when
    [req.file] names a readable file; none at all when [req.file] is
    missing, the file is not on disk or it cannot be read.  Nothing that
    happens later (an upstream failure, a failed delete) adds a call: there
    is no retry. *)
Theorem upstream_called_once_after_read (w : World) (req : Request) (st : State) :
  generate_calls (events (snd (Index.analyze_image w req st)))
  = generate_calls (events st)
    ++ match file req with
       | Some f =>
           match fs st !! path f with
           | Some x => if readable x then [index_request req f x] else []
           | None => []
           end
       | None => []
       end /\
  generate_calls (events (snd (Part000.analyze_image w req st)))
  = generate_calls (events st)
    ++ match file req with
       | Some f =>
           match fs st !! path f with
           | Some x => if readable x then [part000_request req f x] else []
           | None => []
           end
       | None => []
       end.
Proof.
  split.
  - by_paths index_paths w req st.
    1-5: match goal with
         | |- context [Index.analyze_image_catch ?r ?e ?s] =>
             destruct (index_catch_facts r e s) as (_ & -> & _)
         end.
    all: cbn [snd];
      rewrite ?succeeded_calls, ?resumed_calls, ?logged_calls;
      rewrite ?Hnone, ?Hsome, ?Hdisk, ?Hread; by rewrite ?app_nil_r.
  - by_paths part000_paths w req st.
    2-5: match goal with
         | |- context [Part000.analyze_image_catch ?r ?e ?s] =>
             destruct (part000_catch_facts r e s) as (_ & -> & _)
         end.
    all: cbn [snd];
      rewrite ?succeeded_calls, ?resumed_calls;
      rewrite ?Hnone, ?Hsome, ?Hdisk, ?Hread; try by rewrite ?app_nil_r.
    simpl. rewrite generate_calls_app. simpl. by rewrite !app_nil_r.
Qed.

(** ** What a run answers *)

Lemma resumed_responses (w : World) (p : GenerateParams) (st : State) :
  responses (events (resumed w p st)) = responses (events st).
Proof. simpl. rewrite responses_app. simpl. apply app_nil_r. Qed.

Lemma logged_responses (l : LogLine) (st : State) :
  responses (events (emit (ev_console l) st)) = responses (events st).
Proof. simpl. rewrite responses_app. simpl. apply app_nil_r. Qed.

Lemma succeeded_responses (f : UploadedFile) (t : string) (st : State) :
  responses (events (succeeded f t st))
  = responses (events st) ++ [{| status := statusCode st; payload := output_body t |}].
Proof. simpl. rewrite !responses_app. simpl. by rewrite app_nil_r. Qed.

(** X4.  The one answer of an image handler has one of few shapes.
    [{output: t}] is sent, with the status the response object held, only
    when the upstream answered [t] to the call built from this very upload;
    [t] is relayed unchanged.  Otherwise index.js answers its 500 with some
    [details], and part_000 answers one of two constants: its 400 when
    [req.file] is missing, else its 500. *)
Theorem answers_relay_the_upstream_text (w : World) (req : Request) (st : State) :
  (exists r,
      responses (events (snd (Index.analyze_image w req st)))
      = responses (events st) ++ [r] /\
      ((exists details, r = index_failure details) \/
       (exists f x t,
           file req = Some f /\ fs st !! path f = Some x /\ readable x = true /\
           upstream w (index_request req f x) = inl {| text := t |} /\
           r = {| status := statusCode st; payload := output_body t |}))) /\
  (exists r,
      responses (events (snd (Part000.analyze_image w req st)))
      = responses (events st) ++ [r] /\
      ((file req = None /\ r = image_required) \/
       (is_Some (file req) /\ r = part000_failure) \/
       (exists f x t,
           file req = Some f /\ fs st !! path f = Some x /\ readable x = true /\
           upstream w (part000_request req f x) = inl {| text := t |} /\
           r = {| status := statusCode st; payload := output_body t |}))).
Proof.
  split.
  - by_paths index_paths w req st.
    1-5: match goal with
         | |- context [Index.analyze_image_catch ?r ?e ?s] =>
             destruct (index_catch_facts r e s) as (-> & _)
         end.
    1-5: eexists; split;
      [ by rewrite ?resumed_responses, ?logged_responses | left; by eexists ].
    cbn [snd]. eexists. split.
    + by rewrite succeeded_responses, resumed_responses, logged_responses.
    + right. by exists f0, x0, t0.
  - by_paths part000_paths w req st.
    2-5: match goal with
         | |- context [Part000.analyze_image_catch ?r ?e ?s] =>
             destruct (part000_catch_facts r e s) as (-> & _)
         end.
    2-5: eexists; split;
      [ by rewrite ?resumed_responses | right; left; split; [by rewrite Hsome | reflexivity] ].
    + cbn [snd]. eexists. split.
      * simpl. rewrite responses_app. simpl. reflexivity.
      * by left.
    + cbn [snd]. eexists. split.
      * by rewrite succeeded_responses, resumed_responses.
      * right. right. by exists f0, x0, t0.
Qed.

(** ** What index.js tells the client when the disk fails it *)

(** X5.  index.js copies the message of whatever error reached its [catch]
    into the body.  When the stored file is missing, cannot be read, or is
    gone by the time the handler deletes it, that message is Node's, and it
    names the server-side path of the temporary file.  part_000 answers the
    same runs with its constant 500. *)
Theorem index_discloses_upload_path
    (w : World) (req : Request) (f : UploadedFile) (st : State) :
  file req = Some f ->
  let answer_index := responses (events (snd (Index.analyze_image w req st))) in
  let answer_part000 := responses (events (snd (Part000.analyze_image w req st))) in
  (fs st !! path f = None ->
   answer_index
   = responses (events st)
     ++ [index_failure ("ENOENT: no such file or directory, open '" ++ path f ++ "'")%string] /\
   answer_part000 = responses (events st) ++ [part000_failure]) /\
  (forall x, fs st !! path f = Some x -> readable x = false ->
   answer_index
   = responses (events st)
     ++ [index_failure ("EACCES: permission denied, open '" ++ path f ++ "'")%string] /\
   answer_part000 = responses (events st) ++ [part000_failure]) /\
  (forall x r, fs st !! path f = Some x -> readable x = true ->
   upstream w (index_request req f x) = inl r ->
   meanwhile w (fs st) !! path f = None ->
   answer_index
   = responses (events st)
     ++ [index_failure ("ENOENT: no such file or directory, unlink '" ++ path f ++ "'")%string]) /\
  (forall x r, fs st !! path f = Some x -> readable x = true ->
   upstream w (part000_request req f x) = inl r ->
   meanwhile w (fs st) !! path f = None ->
   answer_part000 = responses (events st) ++ [part000_failure]).
Proof.
  intros Hf answer_index answer_part000. subst answer_index answer_part000.
  split; [| split; [| split]].
  - intros Hx. split.
    + by_paths index_paths w req st; try congruence.
      rewrite Hf in Hsome. injection Hsome as <-.
      destruct (index_catch_facts req (SystemError "ENOENT" "open" (path f))
                  (emit (ev_console (log_image_received (size f) (mimetype f))) st))
        as (-> & _).
      by rewrite logged_responses.
    + by_paths part000_paths w req st; try congruence.
      destruct (part000_catch_facts req (SystemError "ENOENT" "open" (path f0)) st)
        as (-> & _).
      reflexivity.
  - intros x Hx Hr. split.
    + by_paths index_paths w req st; try congruence.
      rewrite Hf in Hsome. injection Hsome as <-.
      destruct (index_catch_facts req (SystemError "EACCES" "open" (path f))
                  (emit (ev_console (log_image_received (size f) (mimetype f))) st))
        as (-> & _).
      by rewrite logged_responses.
    + by_paths part000_paths w req st; try congruence.
      destruct (part000_catch_facts req (SystemError "EACCES" "open" (path f0)) st)
        as (-> & _).
      reflexivity.
  - intros x r Hx Hr Hup' Hgone'.
    by_paths index_paths w req st; try congruence.
    + rewrite Hf in Hsome. injection Hsome as <-.
      match goal with
      | |- context [Index.analyze_image_catch ?q ?e ?s] =>
          destruct (index_catch_facts q e s) as (-> & _)
      end.
      by rewrite resumed_responses, logged_responses.
    + rewrite Hf in Hsome. injection Hsome as <-.
      destruct Hstill as [y Hy]. congruence.
  - intros x r Hx Hr Hup' Hgone'.
    by_paths part000_paths w req st; try congruence.
    + match goal with
      | |- context [Part000.analyze_image_catch ?q ?e ?s] =>
          destruct (part000_catch_facts q e s) as (-> & _)
      end.
      by rewrite resumed_responses.
    + rewrite Hf in Hsome. injection Hsome as <-.
      destruct Hstill as [y Hy]. congruence.
Qed.

(** X5 on the sample request when the disk is empty. *)
Lemma index_discloses_upload_path_witness :
  responses (events (snd (Index.analyze_image (answering "A cat.") (sample_request None)
                            (fresh ∅))))
  = [index_failure "ENOENT: no such file or directory, open 'uploads/3f2a'"] /\
  responses (events (snd (Part000.analyze_image (answering "A cat.") (sample_request None)
                            (fresh ∅))))
  = [part000_failure].
Proof.
  destruct (index_discloses_upload_path (answering "A cat.") (sample_request None)
              sample_file (fresh ∅) eq_refl) as [Hmissing _].
  apply Hmissing. apply lookup_empty.
Defined.

(** ** Through the whole stack: the life of an accepted upload *)

(** A handler run on a stored, readable file. *)
Lemma index_on_stored (w : World) (req : Request) (f : UploadedFile) (x : File) (st : State) :
  file req = Some f -> truthy (path f) = true ->
  fs st !! path f = Some x -> readable x = true ->
  exists r,
    fst (Index.analyze_image w req st) = Returned tt /\
    fs (snd (Index.analyze_image w req st)) !! path f = None /\
    generate_calls (events (snd (Index.analyze_image w req st)))
    = generate_calls (events st) ++ [index_request req f x] /\
    responses (events (snd (Index.analyze_image w req st)))
    = responses (events st) ++ [r] /\
    (forall t, private w (path f) ->
               upstream w (index_request req f x) = inl {| text := t |} ->
               r = {| status := statusCode st; payload := output_body t |}).
Proof.
  intros Hf Ht Hx Hr.
  by_paths index_paths w req st; try congruence;
    rewrite Hf in Hsome; injection Hsome as <-;
    rewrite Hx in Hdisk; injection Hdisk as <-.
  1-2: match goal with
       | |- context [Index.analyze_image_catch ?q ?e ?s] =>
           destruct (index_catch_facts q e s) as (-> & -> & _ & Hgo & _)
       end.
  1-2: eexists; split; [by rewrite index_catch_run |]; split; [by apply Hgo |];
       split; [by rewrite resumed_calls, logged_calls |];
       split; [by rewrite resumed_responses, logged_responses |].
  - intros t _ Hup'. rewrite Hup in Hup'. discriminate.
  - intros t Hpriv _. destruct (Hpriv (fs st)) as [y Hy]; [eauto | congruence].
  - cbn [fst snd]. eexists. split; [reflexivity |].
    split; [simpl; apply lookup_delete_eq |].
    split; [by rewrite succeeded_calls, resumed_calls, logged_calls |].
    split; [by rewrite succeeded_responses, resumed_responses, logged_responses |].
    intros t _ Hup'. rewrite Hup in Hup'. by injection Hup' as ->.
Qed.

Lemma part000_on_stored (w : World) (req : Request) (f : UploadedFile) (x : File) (st : State) :
  file req = Some f -> truthy (path f) = true ->
  fs st !! path f = Some x -> readable x = true ->
  exists r,
    fst (Part000.analyze_image w req st) = Returned tt /\
    fs (snd (Part000.analyze_image w req st)) !! path f = None /\
    generate_calls (events (snd (Part000.analyze_image w req st)))
    = generate_calls (events st) ++ [part000_request req f x] /\
    responses (events (snd (Part000.analyze_image w req st)))
    = responses (events st) ++ [r] /\
    (forall t, private w (path f) ->
               upstream w (part000_request req f x) = inl {| text := t |} ->
               r = {| status := statusCode st; payload := output_body t |}).
Proof.
  intros Hf Ht Hx Hr.
  by_paths part000_paths w req st; try congruence;
    rewrite Hf in Hsome; injection Hsome as <-;
    rewrite Hx in Hdisk; injection Hdisk as <-.
  1-2: match goal with
       | |- context [Part000.analyze_image_catch ?q ?e ?s] =>
           destruct (part000_catch_facts q e s) as (-> & -> & _ & Hgo & _)
       end.
  1-2: eexists; split; [by rewrite part000_catch_run |]; split; [by apply Hgo |];
       split; [by rewrite resumed_calls |];
       split; [by rewrite resumed_responses |].
  - intros t _ Hup'. rewrite Hup in Hup'. discriminate.
  - intros t Hpriv _. destruct (Hpriv (fs st)) as [y Hy]; [eauto | congruence].
  - cbn [fst snd]. eexists. split; [reflexivity |].
    split; [simpl; apply lookup_delete_eq |].
    split; [by rewrite succeeded_calls, resumed_calls |].
    split; [by rewrite succeeded_responses, resumed_responses |].
    intros t _ Hup'. rewrite Hup in Hup'. by injection Hup' as ->.
Qed.

(** What the route makes of a handler that returned. *)
Lemma async_handler_returned (h : Request -> M unit) (req : Request) (st : State) :
  fst (h req st) = Returned tt ->
  async_handler h req st = (Returned ended, snd (h req st)).
Proof.
  intros H. unfold async_handler, try_catch, bind, ret.
  destruct (h req st) as [[[] | err] st']; [reflexivity | discriminate].
Qed.

(** X6.  An upload that multer accepts (any declared type within 10 MB on
    index.js; a declared [image/...] type within 5 MB on part_000) goes
    through the whole stack as follows, whatever the upstream and the rest
    of the world do: the request ends answered exactly once, exactly one
    call went upstream, carrying the client's declared type and the base64
    of the bytes as sent, and the file multer stored under [uploads/] no
    longer exists.  When moreover the temporary file is private and the
    upstream answers [t], the answer is 200 [{output: t}]. *)
Theorem accepted_upload_round_trip
    (w : World) (tmp filename type : string) (bytes : list byte)
    (p : option string) (m : gmap string File) :
  (N.of_nat (length bytes) <= 10 * 1024 * 1024 ->
   exists r st',
     handle (Index.app w tmp) None (upload_request filename type bytes p) (fresh m)
     = (stopped, st') /\
     fs st' !! ("uploads/" ++ tmp)%string = None /\
     generate_calls (events st')
     = [image_request "gemini-1.5-flash" (or_default p "Analyze this image")
          type (base64 bytes)] /\
     responses (events st') = [r] /\
     (forall t,
        private w ("uploads/" ++ tmp)%string ->
        upstream w (image_request "gemini-1.5-flash" (or_default p "Analyze this image")
                      type (base64 bytes)) = inl {| text := t |} ->
        r = {| status := 200; payload := output_body t |})) /\
  (String.prefix "image/" type = true ->
   N.of_nat (length bytes) <= 5 * 1024 * 1024 ->
   exists r st',
     handle (Part000.app w tmp) None (upload_request filename type bytes p) (fresh m)
     = (stopped, st') /\
     fs st' !! ("uploads/" ++ tmp)%string = None /\
     generate_calls (events st')
     = [image_request "gemini-2.0-flash"
          (or_default p "Analyze this image and explain what you see")
          type (base64 bytes)] /\
     responses (events st') = [r] /\
     (forall t,
        private w ("uploads/" ++ tmp)%string ->
        upstream w (image_request "gemini-2.0-flash"
                      (or_default p "Analyze this image and explain what you see")
                      type (base64 bytes)) = inl {| text := t |} ->
        r = {| status := 200; payload := output_body t |})).
Proof.
  split.
  - intros Hsize. unfold Index.app.
    cbn [handle method_eqb method url upload_request andb String.eqb Ascii.eqb
         Bool.eqb run_route cors ret].
    rewrite single_stores; [| reflexivity | exact Hsize].
    match goal with
    | |- context [async_handler (Index.analyze_image w) ?q ?s] =>
        destruct (index_on_stored w q
                    {| fieldname := "image"; originalname := filename; mimetype := type;
                       path := ("uploads/" ++ tmp)%string;
                       size := N.of_nat (length bytes) |}
                    {| content := bytes; readable := true |} s
                    eq_refl eq_refl (lookup_insert_eq _ _ _) eq_refl)
          as (r & Hret & Hgone & Hcalls & Hresp & Hok);
        rewrite (async_handler_returned _ q s Hret)
    end.
    exists r. eexists. split; [reflexivity |]. split; [exact Hgone |].
    split; [exact Hcalls |]. split; [exact Hresp | exact Hok].
  - intros Htype Hsize. unfold Part000.app.
    cbn [handle method_eqb method url upload_request andb String.eqb Ascii.eqb
         Bool.eqb run_route cors express_json ret].
    rewrite single_stores; [| by apply part000_filter_image | exact Hsize].
    match goal with
    | |- context [async_handler (Part000.analyze_image w) ?q ?s] =>
        destruct (part000_on_stored w q
                    {| fieldname := "image"; originalname := filename; mimetype := type;
                       path := ("uploads/" ++ tmp)%string;
                       size := N.of_nat (length bytes) |}
                    {| content := bytes; readable := true |} s
                    eq_refl eq_refl (lookup_insert_eq _ _ _) eq_refl)
          as (r & Hret & Hgone & Hcalls & Hresp & Hok);
        rewrite (async_handler_returned _ q s Hret)
    end.
    exists r. eexists. split; [reflexivity |]. split; [exact Hgone |].
    split; [exact Hcalls |]. split; [exact Hresp | exact Hok].
Qed.

(** X6 on the sample upload, the upstream answering "A cat.". *)
Lemma accepted_upload_round_trip_witness :
  exists st',
    handle (Index.app (answering "A cat.") "3f2a") None
      (upload_request "cat.jpg" "image/jpeg" jpeg (Some "describe")) (fresh ∅)
    = (stopped, st') /\
    fs st' !! "uploads/3f2a" = None /\
    generate_calls (events st')
    = [image_request "gemini-1.5-flash" "describe" "image/jpeg" "/9j/4A=="] /\
    responses (events st') = [{| status := 200; payload := output_body "A cat." |}].
Proof.
  destruct (accepted_upload_round_trip (answering "A cat.") "3f2a" "cat.jpg" "image/jpeg"
              jpeg (Some "describe") ∅) as [Hindex _].
  destruct Hindex as (r & st' & Hrun & Hgone & Hcalls & Hresp & Hok); [by vm_compute |].
  exists st'. split; [exact Hrun |]. split; [exact Hgone |]. split; [exact Hcalls |].
  rewrite Hresp.
  by rewrite (Hok "A cat." (answering_private "A cat." "uploads/3f2a") eq_refl).
Defined.

(** ** The encoding of the upload loses nothing *)

(** Division and remainder by constants, over [N]. *)
Ltac ndiv := zify; Z.to_euclidean_division_equations; lia.

Lemma lor_shiftl_add (x y k : N) : y < 2 ^ k -> N.lor (N.shiftl x k) y = x * 2 ^ k + y.
Proof.
  intros Hy. rewrite N.shiftl_mul_pow2.
  assert (Hland : N.land (x * 2 ^ k) y = 0).
  { apply N.bits_inj. intros i. rewrite N.land_spec, N.bits_0.
    destruct (N.lt_ge_cases i k) as [Hi | Hi].
    - by rewrite N.mul_pow2_bits_low.
    - rewrite <- (N.mod_small y (2 ^ k)) by exact Hy.
      rewrite N.mod_pow2_bits_high by exact Hi. apply andb_false_r. }
  rewrite <- N.lxor_lor by exact Hland. symmetry. by apply N.add_nocarry_lxor.
Qed.

Lemma group24_add (a b c : byte) :
  group24 a b c = Byte.to_N a * 65536 + Byte.to_N b * 256 + Byte.to_N c.
Proof.
  pose proof (Byte.to_N_bounded a). pose proof (Byte.to_N_bounded b).
  pose proof (Byte.to_N_bounded c).
  unfold group24.
  rewrite (lor_shiftl_add (Byte.to_N b) (Byte.to_N c) 8) by (change (2 ^ 8) with 256; lia).
  rewrite lor_shiftl_add by (change (2 ^ 8) with 256; change (2 ^ 16) with 65536; lia).
  change (2 ^ 8) with 256. change (2 ^ 16) with 65536. lia.
Qed.

Lemma quad_add (v1 v2 v3 v4 : N) :
  v2 < 64 -> v3 < 64 -> v4 < 64 ->
  quad v1 v2 v3 v4 = v1 * 262144 + v2 * 4096 + v3 * 64 + v4.
Proof.
  intros H2 H3 H4. unfold quad.
  rewrite (lor_shiftl_add v3 v4 6) by exact H4.
  rewrite (lor_shiftl_add v2 _ 12) by (change (2 ^ 6) with 64; change (2 ^ 12) with 4096; lia).
  rewrite lor_shiftl_add
    by (change (2 ^ 6) with 64; change (2 ^ 12) with 4096; change (2 ^ 18) with 262144; lia).
  change (2 ^ 6) with 64. change (2 ^ 12) with 4096. change (2 ^ 18) with 262144. lia.
Qed.

Lemma sextet_low (k : N) :
  k < 64 ->
  let c := nth (N.to_nat k) base64_alphabet "="%char in
  unsextet c = k /\ Ascii.eqb c "=" = false.
Proof.
  intros Hk. destruct k as [| p]; [by split |].
  do 6 (destruct p as [p | p |]; try (by split)); exfalso; lia.
Qed.

Lemma land_63 (n : N) : N.land n 63 = n mod 64.
Proof. change 63 with (N.ones 6). apply N.land_ones. Qed.

Lemma land_255 (n : N) : N.land n 255 = n mod 256.
Proof. change 255 with (N.ones 8). apply N.land_ones. Qed.

Lemma unsextet_sextet (n : N) : unsextet (sextet n) = n mod 64.
Proof.
  unfold sextet. rewrite land_63.
  apply sextet_low. apply N.mod_lt. discriminate.
Qed.

Lemma sextet_not_pad (n : N) : Ascii.eqb (sextet n) "=" = false.
Proof.
  unfold sextet. rewrite land_63.
  apply sextet_low. apply N.mod_lt. discriminate.
Qed.

Lemma octet_of_N (m k : N) (a : byte) :
  (m / 2 ^ k) mod 256 = Byte.to_N a -> octet m k = a.
Proof.
  intros H. unfold octet. rewrite N.shiftr_div_pow2, land_255, H.
  by rewrite Byte.of_to_N.
Qed.

(** The four sextets of a 24-bit group, read back. *)
Lemma sextets_read_back (n : N) (pad3 pad4 : bool) :
  quad (unsextet (sextet (N.shiftr n 18))) (unsextet (sextet (N.shiftr n 12)))
       (if pad3 then 0 else unsextet (sextet (N.shiftr n 6)))
       (if pad4 then 0 else unsextet (sextet n))
  = ((n / 262144) mod 64) * 262144 + ((n / 4096) mod 64) * 4096
    + (if pad3 then 0 else (n / 64) mod 64) * 64
    + (if pad4 then 0 else n mod 64).
Proof.
  rewrite !unsextet_sextet, !N.shiftr_div_pow2.
  change (2 ^ 18) with 262144. change (2 ^ 12) with 4096. change (2 ^ 6) with 64.
  assert (H64 : forall x, x mod 64 < 64) by (intros x; apply N.mod_lt; discriminate).
  rewrite quad_add; [by destruct pad3, pad4 | apply H64 | |].
  - destruct pad3; [reflexivity | apply H64].
  - destruct pad4; [reflexivity | apply H64].
Qed.

Lemma decode_three (a b c : byte) :
  let n := group24 a b c in
  let m := quad (unsextet (sextet (N.shiftr n 18))) (unsextet (sextet (N.shiftr n 12)))
                (unsextet (sextet (N.shiftr n 6))) (unsextet (sextet n)) in
  octet m 16 = a /\ octet m 8 = b /\ octet m 0 = c.
Proof.
  intros n m. subst m.
  rewrite (sextets_read_back n false false). subst n. rewrite group24_add.
  pose proof (Byte.to_N_bounded a). pose proof (Byte.to_N_bounded b).
  pose proof (Byte.to_N_bounded c).
  repeat split; apply octet_of_N;
    [change (2 ^ 16) with 65536 | change (2 ^ 8) with 256 | change (2 ^ 0) with 1]; ndiv.
Qed.

Lemma decode_two (a b : byte) :
  let n := group24 a b x00 in
  let m := quad (unsextet (sextet (N.shiftr n 18))) (unsextet (sextet (N.shiftr n 12)))
                (unsextet (sextet (N.shiftr n 6))) 0 in
  octet m 16 = a /\ octet m 8 = b.
Proof.
  intros n m. subst m.
  rewrite (sextets_read_back n false true). subst n. rewrite group24_add.
  pose proof (Byte.to_N_bounded a). pose proof (Byte.to_N_bounded b).
  change (Byte.to_N x00) with 0.
  repeat split; apply octet_of_N;
    [change (2 ^ 16) with 65536 | change (2 ^ 8) with 256]; ndiv.
Qed.

Lemma decode_one (a : byte) :
  let n := group24 a x00 x00 in
  octet (quad (unsextet (sextet (N.shiftr n 18))) (unsextet (sextet (N.shiftr n 12))) 0 0) 16
  = a.
Proof.
  intros n.
  rewrite (sextets_read_back n true true). subst n. rewrite group24_add.
  pose proof (Byte.to_N_bounded a). change (Byte.to_N x00) with 0.
  apply octet_of_N. change (2 ^ 16) with 65536. ndiv.
Qed.

Lemma unbase64_base64 (bytes : list byte) : unbase64 (base64 bytes) = bytes.
Proof.
  assert (H : forall n (bs : list byte), (length bs <= n)%nat -> unbase64 (base64 bs) = bs).
  { induction n as [| n IH]; intros bs Hn.
    - destruct bs; [reflexivity | simpl in Hn; lia].
    - destruct bs as [| a [| b [| c rest]]].
      + reflexivity.
      + cbn [base64 unbase64]. change (Ascii.eqb "=" "=") with true. cbv iota.
        by rewrite (decode_one a).
      + cbn [base64 unbase64]. rewrite sextet_not_pad.
        change (Ascii.eqb "=" "=") with true. cbv iota.
        destruct (decode_two a b) as [-> ->]. reflexivity.
      + cbn [base64 unbase64]. rewrite !sextet_not_pad.
        destruct (decode_three a b c) as (-> & -> & ->).
        rewrite IH by (simpl in Hn; lia). reflexivity. }
  apply (H (length bytes)). lia.
Qed.

(** X7.  The [data] the handlers send determines the bytes of the upload:
    decoding the base64 text gives the file back, byte for byte, whatever
    its length (so also across the one- and two-byte padded endings); hence
    two readable uploads that differ in their bytes never lead to the same
    upstream call. *)
Theorem upload_bytes_survive_encoding :
  (forall bytes, unbase64 (base64 bytes) = bytes) /\
  (forall req f x1 x2,
     index_request req f x1 = index_request req f x2 -> content x1 = content x2) /\
  (forall req f x1 x2,
     part000_request req f x1 = part000_request req f x2 -> content x1 = content x2).
Proof.
  split; [exact unbase64_base64 |].
  split; intros req f x1 x2 Heq;
    injection Heq as Heq;
    rewrite <- (unbase64_base64 (content x1)), <- (unbase64_base64 (content x2));
    by rewrite Heq.
Qed.

Lemma sextet_in_alphabet (n : N) : In (sextet n) base64_alphabet.
Proof.
  unfold sextet. rewrite land_63. apply nth_In.
  change (length base64_alphabet) with 64%nat.
  pose proof (N.mod_lt n 64). lia.
Qed.

(** X8.  The [data] sent for an upload of [n] bytes is [4 * ceil(n / 3)]
    characters long, and every character is one of the 64 of the base64
    alphabet or the padding sign. *)
Theorem base64_payload_shape (bytes : list byte) :
  String.length (base64 bytes) = (4 * ((length bytes + 2) / 3))%nat /\
  Forall (fun c => In c base64_alphabet \/ c = "="%char)
         (list_ascii_of_string (base64 bytes)).
Proof.
  split; [apply base64_length |].
  assert (H : forall n (bs : list byte), (length bs <= n)%nat ->
            Forall (fun c => In c base64_alphabet \/ c = "="%char)
                   (list_ascii_of_string (base64 bs))).
  { induction n as [| n IH]; intros bs Hn.
    - destruct bs; [constructor | simpl in Hn; lia].
    - destruct bs as [| a [| b [| c rest]]]; cbn [base64 list_ascii_of_string].
      + constructor.
      + repeat (constructor; [first [left; apply sextet_in_alphabet | by right] |]).
        constructor.
      + repeat (constructor; [first [left; apply sextet_in_alphabet | by right] |]).
        constructor.
      + repeat (constructor; [left; apply sextet_in_alphabet |]).
        apply IH. simpl in Hn. lia. }
  apply (H (length bytes)). lia.
Qed.

(** ** Through the whole stack: the health check *)

(** X9.  GET / is answered by the stack of either file with status 200 and
    the file's fixed liveness text, whatever the request carries, whatever
    is on disk and whatever the upstream would do: no call goes upstream,
    multer does not run (nothing is stored) and nothing is logged. *)
Theorem health_check_needs_nothing
    (w : World) (tmp : string) (mp : option Multipart) (fl : option UploadedFile)
    (b : RequestBody) (m : gmap string File) :
  handle (Index.app w tmp) None
    {| method := GET; url := "/"; multipart := mp; file := fl; body := b |} (fresh m)
  = (stopped,
     {| fs := m; statusCode := 200;
        events := [ev_send {| status := 200;
                              payload := text_body "Gemini backend running ✅" |}] |}) /\
  handle (Part000.app w tmp) None
    {| method := GET; url := "/"; multipart := mp; file := fl; body := b |} (fresh m)
  = (stopped,
     {| fs := m; statusCode := 200;
        events := [ev_send {| status := 200;
                              payload := text_body "✅ Gemini backend is running" |}] |}).
Proof. split; reflexivity. Qed.
